(** * RenderWindow (VSIM_Oblig_3/renderwindow.cpp): render loop, input
    handling and frame-rate diagnostics, embedded as a state-and-trace
    program.

    The window is a record of its member variables.  Every call that leaves
    renderwindow.cpp (Qt, OpenGL, the logger, shaders, the camera, the
    drawable objects) is appended to a trace of events; values that come
    back from such calls (the result of makeCurrent, the window size, the
    position of an object) are inputs of the handler that asks for them.
    A call through a null pointer is undefined behaviour in C++ and ends
    the run with [Undefined]; so does the glViewport of exposeEvent when
    initializeOpenGLFunctions() has not been called before it.  The order
    in which the compiler evaluates the two rand() arguments of a rain
    position is a parameter of the embedding ([ArgOrder]).

    Embedded: the constructor, init, startOpenGLDebugger, render,
    exposeEvent, calculateFramerate, checkForGLerrors and keyPressEvent.
    The destructor is left out. *)

From Stdlib Require Import ZArith List String Ascii Bool Lia Permutation.
From Stdlib Require Import Floats.SpecFloat.
From Stdlib Require Import DecimalString.
Import ListNotations.
Open Scope Z_scope.

(** ** Single-precision floats (the coordinates of a QVector3D) *)

Module F32.

Definition prec : Z := 24.
Definition emax : Z := 128.

Definition t : Type := spec_float.

(** [a + b] and [a - b] on C++ [float], round to nearest even. *)
Definition add : t -> t -> t := SFadd prec emax.
Definition sub : t -> t -> t := SFsub prec emax.

(** Conversion of an [int] to [float]. *)
Definition of_int (n : Z) : t := binary_normalize prec emax n 0 false.

End F32.

(** ** QVector3D *)

Record QVector3D : Type := vec3 { vx : F32.t; vy : F32.t; vz : F32.t }.

Definition setX (v : QVector3D) (x : F32.t) : QVector3D := vec3 x (vy v) (vz v).
Definition setY (v : QVector3D) (y : F32.t) : QVector3D := vec3 (vx v) y (vz v).
Definition setZ (v : QVector3D) (z : F32.t) : QVector3D := vec3 (vx v) (vy v) z.

(** QVector3D(int, int, int): each argument is converted to float. *)
Definition vec3i (x y z : Z) : QVector3D :=
  vec3 (F32.of_int x) (F32.of_int y) (F32.of_int z).

(** operator+ on QVector3D, componentwise. *)
Definition vadd (a b : QVector3D) : QVector3D :=
  vec3 (F32.add (vx a) (vx b)) (F32.add (vy a) (vy b)) (F32.add (vz a) (vz b)).

(** ** Pointers and the objects created with [new] *)

(** [addr a] is the [a]-th object this file creates with new; [extern n]
    is an object it is handed from outside (the main window, the logger
    singleton). *)
Inductive ptr : Type :=
| nullptr
| addr (a : nat)
| extern (n : nat).

Definition is_null (p : ptr) : bool :=
  match p with nullptr => true | _ => false end.

(** The constructor call of a [new] expression, with its arguments. *)
Inductive ctor : Type :=
| NewQOpenGLContext
| NewQTimer
| NewQOpenGLDebugLogger
| NewShader (vert frag : string)
| NewCamera
| NewSurfaceMesh (shader : ptr)
| NewRollingBall (obj : string) (shader : ptr).

Definition is_RollingBall (c : ctor) : bool :=
  match c with NewRollingBall _ _ => true | _ => false end.

(** ** Calls to collaborators *)

Inductive LogType : Type := REALERROR | HIGHLIGHT.

Inductive camera_matrix : Type := mVmatrix | mPmatrix.

(** Member functions called through a pointer.  Where a call returns a
    value the program uses, the value is part of the event. *)
Inductive method : Type :=
(* QOpenGLContext *)
| setFormat
| create (ok : bool)
| makeCurrent (ok : bool)
| swapBuffers
| hasExtension (name : string) (yes : bool)
| testDebugContext (yes : bool)
(* Logger; [None] is the default second argument of logText *)
| logText (msg : string) (ty : option LogType)
(* Shader *)
| use
| SetUniformMatrix4fv (m : camera_matrix) (name : string)
| SetUniform3f (x y z : F32.t) (name : string)
(* Camera; perspective keeps the operands of the aspect-ratio division
   and the literals of the clip planes *)
| Camera_init
| perspective (fov width height : Z) (near far : string)
| lookAt (eye target up : QVector3D)
| Camera_GetPosition (result : QVector3D)
(* VisualObject, SurfaceMesh, RollingBall *)
| VisualObject_init
| UpdateTransform
| draw
| GetPosition (result : QVector3D)
| SetPosition (v : QVector3D)
| SetSurface (surface : ptr)
| EnablePhysics
| AddLife
(* MainWindow; showMessage keeps the elapsed nanoseconds from which
   both numbers of the status text are formatted *)
| close
| statusBar_showMessage (nsecElapsed : Z)
(* QTimer *)
| start (msec : Z)
(* QOpenGLDebugLogger *)
| initialize (ok : bool).

Inductive glcall : Type :=
| initializeOpenGLFunctions
| glGetString_VENDOR_RENDERER_VERSION
| glEnable_DEPTH_TEST
| glClearColor (r g b a : string)
| glBindVertexArray (n : Z)
| glClear_COLOR_DEPTH
| glViewport (width height : Z) (retinaScale : spec_float).

Inductive qdebug : Type :=
| DebugText (s : string)
| DebugSpawn (i : Z) (RainSpawn : QVector3D).

Inductive event : Type :=
| New (a : nat) (c : ctor)
| Call (p : ptr) (m : method)
| GL (g : glcall)
| Logger_getInstance (result : ptr)
| Connect_timeout_render (timer : ptr)
| mTimeStart_start
| mTimeStart_restart
| mTimeStart_nsecsElapsed (result : Z)
| qDebug (d : qdebug).

(** ** The C library generator behind rand() *)

Class CRand : Type := {
  rand_state : Type;
  (** state at program start, the one srand(1) would set *)
  rand_start : rand_state;
  RAND_MAX : Z;
  rand : rand_state -> Z * rand_state;
  rand_range : forall g, 0 <= fst (rand g) <= RAND_MAX
}.

(** The portable generator printed in ISO C (7.22.2.2), RAND_MAX 32767. *)
Definition iso_next (g : Z) : Z := (g * 1103515245 + 12345) mod 4294967296.

Definition iso_rand (g : Z) : Z * Z :=
  let g' := iso_next g in ((g' / 65536) mod 32768, g').

Definition iso_rand_range (g : Z) : 0 <= fst (iso_rand g) <= 32767 :=
  conj (proj1 (Z.mod_pos_bound (iso_next g / 65536) 32768 eq_refl))
       (proj1 (Z.lt_succ_r _ 32767)
              (proj2 (Z.mod_pos_bound (iso_next g / 65536) 32768 eq_refl))).

#[export] Instance iso_c_rand : CRand := {
  rand_state := Z;
  rand_start := 1;
  RAND_MAX := 32767;
  rand := iso_rand;
  rand_range := iso_rand_range
}.

(** ** Order of evaluation of call arguments *)

(** The two rand() calls of the rain loop are arguments of one constructor
    call (keyPressEvent, [QVector3D RainSpawn(-10 + rand() % 20, 5,
    -10 + rand() % 20)]).  C++ does not say which argument is evaluated
    first; the compiler decides.  [first_argument_first] says whether the
    rand() of the first argument (x) is called before the rand() of the
    third (z). *)
Class ArgOrder : Type := { first_argument_first : bool }.

Definition left_to_right : ArgOrder := {| first_argument_first := true |}.

Definition right_to_left : ArgOrder := {| first_argument_first := false |}.

(** ** Name-keyed registries (mShaders, mMap) *)

Module Registry.

(** Modelled from the spec: the container type of mShaders and mMap is
    declared in renderwindow.h, which is not among the sources.  The spec
    (sections 2 and 3) describes both as name-keyed mappings and the scene
    registry as iterated in insertion order; the file uses insert with a
    pair, operator[] and begin/end iteration.  The registry is therefore an
    association list in insertion order with unique keys. *)
Definition t : Type := list (string * ptr).

Fixpoint find (k : string) (m : t) : option ptr :=
  match m with
  | [] => None
  | (k', v) :: m' => if String.eqb k k' then Some v else find k m'
  end.

(** insert(pair): adds the pair unless the key is already present. *)
Definition insert (k : string) (v : ptr) (m : t) : t :=
  match find k m with
  | Some _ => m
  | None => m ++ [(k, v)]
  end.

(** operator[]: the mapped pointer; an absent key is first inserted with a
    value-initialised (null) pointer. *)
Definition index (k : string) (m : t) : ptr * t :=
  match find k m with
  | Some v => (v, m)
  | None => (nullptr, m ++ [(k, nullptr)])
  end.

End Registry.

(** ** Key codes of the Qt::Key enumeration used by the handler *)

Definition Key_Escape : Z := 16777216.   (* 0x01000000 *)
Definition Key_A : Z := 65.
Definition Key_D : Z := 68.
Definition Key_E : Z := 69.
Definition Key_I : Z := 73.
Definition Key_Q : Z := 81.
Definition Key_S : Z := 83.
Definition Key_W : Z := 87.

(** ** The window and the world around it *)

Record RenderWindow : Type := mkRenderWindow {
  mContext : ptr;
  mInitialized : bool;
  mMainWindow : ptr;
  mRenderTimer : ptr;
  mLogger : ptr;
  mOpenGLDebugLogger : ptr;
  mShaders : Registry.t;
  mCamera : ptr;
  mMap : Registry.t;
  mBall : ptr;
  CamPos : QVector3D;
  ActivateRain : bool;
  mRainAmount : Z;
  mRainDrops : list ptr
}.

Definition set_mContext (v : ptr) (s : RenderWindow) : RenderWindow :=
  mkRenderWindow v (mInitialized s) (mMainWindow s) (mRenderTimer s) (mLogger s)
    (mOpenGLDebugLogger s) (mShaders s) (mCamera s) (mMap s) (mBall s) (CamPos s)
    (ActivateRain s) (mRainAmount s) (mRainDrops s).

Definition set_mInitialized (v : bool) (s : RenderWindow) : RenderWindow :=
  mkRenderWindow (mContext s) v (mMainWindow s) (mRenderTimer s) (mLogger s)
    (mOpenGLDebugLogger s) (mShaders s) (mCamera s) (mMap s) (mBall s) (CamPos s)
    (ActivateRain s) (mRainAmount s) (mRainDrops s).

Definition set_mRenderTimer (v : ptr) (s : RenderWindow) : RenderWindow :=
  mkRenderWindow (mContext s) (mInitialized s) (mMainWindow s) v (mLogger s)
    (mOpenGLDebugLogger s) (mShaders s) (mCamera s) (mMap s) (mBall s) (CamPos s)
    (ActivateRain s) (mRainAmount s) (mRainDrops s).

Definition set_mLogger (v : ptr) (s : RenderWindow) : RenderWindow :=
  mkRenderWindow (mContext s) (mInitialized s) (mMainWindow s) (mRenderTimer s) v
    (mOpenGLDebugLogger s) (mShaders s) (mCamera s) (mMap s) (mBall s) (CamPos s)
    (ActivateRain s) (mRainAmount s) (mRainDrops s).

Definition set_mOpenGLDebugLogger (v : ptr) (s : RenderWindow) : RenderWindow :=
  mkRenderWindow (mContext s) (mInitialized s) (mMainWindow s) (mRenderTimer s) (mLogger s)
    v (mShaders s) (mCamera s) (mMap s) (mBall s) (CamPos s)
    (ActivateRain s) (mRainAmount s) (mRainDrops s).

Definition set_mShaders (v : Registry.t) (s : RenderWindow) : RenderWindow :=
  mkRenderWindow (mContext s) (mInitialized s) (mMainWindow s) (mRenderTimer s) (mLogger s)
    (mOpenGLDebugLogger s) v (mCamera s) (mMap s) (mBall s) (CamPos s)
    (ActivateRain s) (mRainAmount s) (mRainDrops s).

Definition set_mCamera (v : ptr) (s : RenderWindow) : RenderWindow :=
  mkRenderWindow (mContext s) (mInitialized s) (mMainWindow s) (mRenderTimer s) (mLogger s)
    (mOpenGLDebugLogger s) (mShaders s) v (mMap s) (mBall s) (CamPos s)
    (ActivateRain s) (mRainAmount s) (mRainDrops s).

Definition set_mMap (v : Registry.t) (s : RenderWindow) : RenderWindow :=
  mkRenderWindow (mContext s) (mInitialized s) (mMainWindow s) (mRenderTimer s) (mLogger s)
    (mOpenGLDebugLogger s) (mShaders s) (mCamera s) v (mBall s) (CamPos s)
    (ActivateRain s) (mRainAmount s) (mRainDrops s).

Definition set_mBall (v : ptr) (s : RenderWindow) : RenderWindow :=
  mkRenderWindow (mContext s) (mInitialized s) (mMainWindow s) (mRenderTimer s) (mLogger s)
    (mOpenGLDebugLogger s) (mShaders s) (mCamera s) (mMap s) v (CamPos s)
    (ActivateRain s) (mRainAmount s) (mRainDrops s).

Definition set_CamPos (v : QVector3D) (s : RenderWindow) : RenderWindow :=
  mkRenderWindow (mContext s) (mInitialized s) (mMainWindow s) (mRenderTimer s) (mLogger s)
    (mOpenGLDebugLogger s) (mShaders s) (mCamera s) (mMap s) (mBall s) v
    (ActivateRain s) (mRainAmount s) (mRainDrops s).

Definition set_ActivateRain (v : bool) (s : RenderWindow) : RenderWindow :=
  mkRenderWindow (mContext s) (mInitialized s) (mMainWindow s) (mRenderTimer s) (mLogger s)
    (mOpenGLDebugLogger s) (mShaders s) (mCamera s) (mMap s) (mBall s) (CamPos s)
    v (mRainAmount s) (mRainDrops s).

Definition set_mRainDrops (v : list ptr) (s : RenderWindow) : RenderWindow :=
  mkRenderWindow (mContext s) (mInitialized s) (mMainWindow s) (mRenderTimer s) (mLogger s)
    (mOpenGLDebugLogger s) (mShaders s) (mCamera s) (mMap s) (mBall s) (CamPos s)
    (ActivateRain s) (mRainAmount s) v.

Section Program.

Context {R : CRand}.

(** [win] is the RenderWindow object, [frameCount] the static local of
    calculateFramerate, [heap] the objects created with new (the address of
    an object is its index), [rng] the state behind rand(), [out] the calls
    made so far, oldest first. *)
Record World : Type := mkWorld {
  win : RenderWindow;
  frameCount : Z;
  heap : list ctor;
  rng : rand_state;
  out : list event
}.

Definition set_win (v : RenderWindow) (w : World) : World :=
  mkWorld v (frameCount w) (heap w) (rng w) (out w).
Definition set_frameCount (v : Z) (w : World) : World :=
  mkWorld (win w) v (heap w) (rng w) (out w).
Definition set_heap (v : list ctor) (w : World) : World :=
  mkWorld (win w) (frameCount w) v (rng w) (out w).
Definition set_rng (v : rand_state) (w : World) : World :=
  mkWorld (win w) (frameCount w) (heap w) v (out w).
Definition set_out (v : list event) (w : World) : World :=
  mkWorld (win w) (frameCount w) (heap w) (rng w) v.

(** *** State, trace and undefined behaviour *)

Inductive result (A : Type) : Type :=
| Ok (a : A) (w : World)
| Undefined.

Arguments Ok {A} a w.
Arguments Undefined {A}.

Definition M (A : Type) : Type := World -> result A.

Definition ret {A} (a : A) : M A := fun w => Ok a w.

Definition bind {A B} (m : M A) (f : A -> M B) : M B :=
  fun w => match m w with
           | Ok a w' => f a w'
           | Undefined => Undefined
           end.

Definition undefined {A} : M A := fun _ => Undefined.

Definition gets {A} (f : World -> A) : M A := fun w => Ok (f w) w.
Definition modify (f : World -> World) : M unit := fun w => Ok tt (f w).

Definition getw {A} (f : RenderWindow -> A) : M A := gets (fun w => f (win w)).
Definition setw (f : RenderWindow -> RenderWindow) : M unit :=
  modify (fun w => set_win (f (win w)) w).

Definition emits (t : list event) (w : World) : World := set_out (out w ++ t) w.
Definition emit (e : event) : M unit := modify (emits [e]).

End Program.

Arguments Ok {R A} a w.
Arguments Undefined {R A}.

Declare Scope prog_scope.
Delimit Scope prog_scope with prog.
Notation "x <- m ;; k" := (bind m (fun x => k))
  (at level 61, m at next level, right associativity) : prog_scope.
Notation "m ;; k" := (bind m (fun _ => k))
  (at level 61, right associativity) : prog_scope.

Section Handlers.

Context {R : CRand} {order : ArgOrder}.
Open Scope prog_scope.

Definition when (b : bool) (m : M unit) : M unit := if b then m else ret tt.

(** [p->m(...)]: undefined through a null pointer. *)
Definition call (p : ptr) (m : method) : M unit :=
  match p with
  | nullptr => undefined
  | _ => emit (Call p m)
  end.

(** [new C(...)]: a fresh object, never null. *)
Definition new (c : ctor) : M ptr :=
  fun w => let a := List.length (heap w) in
           Ok (addr a) (emits [New a c] (set_heap (heap w ++ [c]) w)).

(** dynamic_cast<RollingBall*>(p) *)
Definition dynamic_cast_RollingBall (p : ptr) : M ptr :=
  h <- gets heap ;;
  ret match p with
      | nullptr => nullptr
      | addr a => match nth_error h a with
                  | Some c => if is_RollingBall c then p else nullptr
                  | None => nullptr
                  end
      | extern _ => nullptr
      end.

(** rand() *)
Definition c_rand : M Z :=
  fun w => let (r, g) := rand (rng w) in Ok r (set_rng g w).

Definition mShaders_insert (k : string) (v : ptr) : M unit :=
  setw (fun s => set_mShaders (Registry.insert k v (mShaders s)) s).

Definition mShaders_index (k : string) : M ptr :=
  m <- getw mShaders ;;
  let (v, m') := Registry.index k m in
  setw (set_mShaders m') ;; ret v.

Definition mMap_insert (k : string) (v : ptr) : M unit :=
  setw (fun s => set_mMap (Registry.insert k v (mMap s)) s).

Definition mMap_index (k : string) : M ptr :=
  m <- getw mMap ;;
  let (v, m') := Registry.index k m in
  setw (set_mMap m') ;; ret v.

(** A loop over the elements of a container the body leaves alone. *)
Fixpoint for_each {A} (l : list A) (body : A -> M unit) : M unit :=
  match l with
  | [] => ret tt
  | x :: l' => body x ;; for_each l' body
  end.

(** [for (int i = from; i < from + n; i++) body] *)
Fixpoint for_count (n : nat) (from : Z) (body : Z -> M unit) : M unit :=
  match n with
  | O => ret tt
  | S n' => body from ;; for_count n' (from + 1) body
  end.

(** *** What the handlers are told by their surroundings *)

(** init(): the logger singleton, whether makeCurrent succeeded, the three
    strings of glGetString, and what the debug-logger probe finds. *)
Record init_env : Type := {
  ie_logger : ptr;
  ie_makeCurrent : bool;
  ie_vendor : string;
  ie_renderer : string;
  ie_version : string;
  ie_debugContext : bool;
  ie_khr_debug : bool;
  ie_debugLoggerStarted : bool
}.

(** render(): the frame clock, whether makeCurrent succeeded, the window
    size, and the positions returned by the ball and by the camera. *)
Record frame_env : Type := {
  fe_nsecsElapsed : Z;
  fe_makeCurrent : bool;
  fe_width : Z;
  fe_height : Z;
  fe_ballPosition : QVector3D;
  fe_cameraPosition : QVector3D
}.

Record expose_env : Type := {
  ee_init : init_env;
  ee_devicePixelRatio : spec_float;
  ee_width : Z;
  ee_height : Z;
  ee_isExposed : bool
}.

(** In-class initialisers of renderwindow.h, which is not among the
    sources: the start values of CamPos, ActivateRain and mRainAmount. *)
Record header_defaults : Type := {
  hd_CamPos : QVector3D;
  hd_ActivateRain : bool;
  hd_mRainAmount : Z
}.

(** *** RenderWindow::RenderWindow *)

(** The members before the constructor body runs: mContext(nullptr),
    mInitialized(false), mMainWindow(mainWindow), empty containers; the
    pointer members the initialiser list leaves out are taken as null. *)
Definition members_start (hd : header_defaults) (mainWindow : ptr) : RenderWindow :=
  {| mContext := nullptr; mInitialized := false; mMainWindow := mainWindow;
     mRenderTimer := nullptr; mLogger := nullptr; mOpenGLDebugLogger := nullptr;
     mShaders := []; mCamera := nullptr; mMap := []; mBall := nullptr;
     CamPos := hd_CamPos hd; ActivateRain := hd_ActivateRain hd;
     mRainAmount := hd_mRainAmount hd; mRainDrops := [] |}.

Definition process_start (hd : header_defaults) (mainWindow : ptr) : World :=
  {| win := members_start hd mainWindow; frameCount := 0; heap := [];
     rng := rand_start; out := [] |}.

(** The body of the constructor; [create_ok] is what mContext->create()
    returns.  (setSurfaceType and setFormat of the QWindow base are left
    out of the trace.) *)
Definition RenderWindow_ctor (create_ok : bool) : M unit :=
  ctx <- new NewQOpenGLContext ;;
  setw (set_mContext ctx) ;;
  call ctx setFormat ;;
  call ctx (create create_ok) ;;
  when (negb create_ok)
    (setw (set_mContext nullptr) ;;
     emit (qDebug (DebugText "Context could not be made - quitting this application"))) ;;
  timer <- new NewQTimer ;;
  setw (set_mRenderTimer timer).

(** *** RenderWindow::startOpenGLDebugger *)

Definition startOpenGLDebugger (e : init_env) : M unit :=
  temp <- getw mContext ;;
  lg <- getw mLogger ;;
  when (negb (is_null temp))
    (call temp (testDebugContext (ie_debugContext e)) ;;
     when (negb (ie_debugContext e))
       (call lg (logText
          "This system can not use QOpenGLDebugLogger, so we revert to glGetError()"
          (Some HIGHLIGHT))) ;;
     call temp (hasExtension "GL_KHR_debug" (ie_khr_debug e)) ;;
     when (ie_khr_debug e)
       (call lg (logText "This system can log extended OpenGL errors" (Some HIGHLIGHT)) ;;
        dbg <- new NewQOpenGLDebugLogger ;;
        setw (set_mOpenGLDebugLogger dbg) ;;
        call dbg (initialize (ie_debugLoggerStarted e)) ;;
        when (ie_debugLoggerStarted e)
          (call lg (logText "Started Qt OpenGL debug logger" None)))).

(** *** RenderWindow::init *)

Definition nl : string := String (ascii_of_nat 10) EmptyString.

Definition gpu_info (e : init_env) : string :=
  (("  Vendor: " ++ ie_vendor e) ++ nl ++
   ("  Renderer: " ++ ie_renderer e) ++ nl ++
   ("  Version: " ++ ie_version e))%string.

Definition add_shader (name vert frag : string) : M unit :=
  sh <- new (NewShader vert frag) ;;
  mShaders_insert name sh.

Definition init (e : init_env) : M unit :=
  emit (Logger_getInstance (ie_logger e)) ;;
  setw (set_mLogger (ie_logger e)) ;;
  timer <- getw mRenderTimer ;;
  emit (Connect_timeout_render timer) ;;
  ctx <- getw mContext ;;
  lg <- getw mLogger ;;
  call ctx (makeCurrent (ie_makeCurrent e)) ;;
  if negb (ie_makeCurrent e) then
    call lg (logText "makeCurrent() failed" (Some REALERROR))
  else
    initialized <- getw mInitialized ;;
    when (negb initialized) (setw (set_mInitialized true)) ;;
    emit (GL initializeOpenGLFunctions) ;;
    call lg (logText "The active GPU and API:" (Some HIGHLIGHT)) ;;
    emit (GL glGetString_VENDOR_RENDERER_VERSION) ;;
    call lg (logText (gpu_info e) None) ;;
    startOpenGLDebugger e ;;
    emit (GL glEnable_DEPTH_TEST) ;;
    emit (GL (glClearColor "0.4f" "0.4f" "0.4f" "1.0f")) ;;
    add_shader "PlainShader" "../VSIM_Oblig_3/plainshader.vert"
                             "../VSIM_Oblig_3/plainshader.frag" ;;
    add_shader "TextureShader" "../VSIM_Oblig_3/textureshader.vert"
                               "../VSIM_Oblig_3/textureshader.frag" ;;
    add_shader "LightShader" "../VSIM_Oblig_3/lightshader.vert"
                             "../VSIM_Oblig_3/lightshader.frag" ;;
    add_shader "HeightShader" "../VSIM_Oblig_3/heightshader.vert"
                              "../VSIM_Oblig_3/heightshader.frag" ;;
    cam <- new NewCamera ;;
    setw (set_mCamera cam) ;;
    plain <- mShaders_index "PlainShader" ;;
    surface <- new (NewSurfaceMesh plain) ;;
    mMap_insert "Surface" surface ;;
    plain' <- mShaders_index "PlainShader" ;;
    ball <- new (NewRollingBall "../VSIM_Oblig_3/ball.obj" plain') ;;
    mMap_insert "Ball" ball ;;
    b <- mMap_index "Ball" ;;
    b' <- dynamic_cast_RollingBall b ;;
    setw (set_mBall b') ;;
    when (negb (is_null b'))
      (s <- mMap_index "Surface" ;;
       call b' (SetSurface s)) ;;
    objects <- getw mMap ;;
    for_each objects (fun it =>
      call (snd it) VisualObject_init ;;
      call (snd it) UpdateTransform) ;;
    emit (GL (glBindVertexArray 0)).

(** *** RenderWindow::calculateFramerate *)

(** The source compares the counter with the literal 30; the period is a
    parameter here so that the diagnostic can be compared at different
    periods.  [calculateFramerate] below is the function of the source. *)
Definition calculateFramerate_every (period : Z) (nsecElapsed : Z) : M unit :=
  emit (mTimeStart_nsecsElapsed nsecElapsed) ;;
  mw <- getw mMainWindow ;;
  when (negb (is_null mw))
    (modify (fun w => set_frameCount (frameCount w + 1) w) ;;
     n <- gets frameCount ;;
     when (period <? n)
       (call mw (statusBar_showMessage nsecElapsed) ;;
        modify (set_frameCount 0))).

Definition calculateFramerate : Z -> M unit := calculateFramerate_every 30.

(** *** RenderWindow::render *)

Definition broadcast_camera (e : frame_env) (cam : ptr) (it : string * ptr) : M unit :=
  call (snd it) use ;;
  call (snd it) (SetUniformMatrix4fv mVmatrix "vMatrix") ;;
  call (snd it) (SetUniformMatrix4fv mPmatrix "pMatrix") ;;
  when (String.eqb (fst it) "LightShader")
    (call cam (Camera_GetPosition (fe_cameraPosition e)) ;;
     call cam (Camera_GetPosition (fe_cameraPosition e)) ;;
     call cam (Camera_GetPosition (fe_cameraPosition e)) ;;
     call (snd it) (SetUniform3f (vx (fe_cameraPosition e)) (vy (fe_cameraPosition e))
                                 (vy (fe_cameraPosition e)) "cameraPosition")).

Definition render_every (period : Z) (e : frame_env) : M unit :=
  calculateFramerate_every period (fe_nsecsElapsed e) ;;
  emit mTimeStart_restart ;;
  ctx <- getw mContext ;;
  call ctx (makeCurrent (fe_makeCurrent e)) ;;
  emit (GL initializeOpenGLFunctions) ;;
  emit (GL glClear_COLOR_DEPTH) ;;
  cam <- getw mCamera ;;
  call cam Camera_init ;;
  call cam (perspective 90 (fe_width e) (fe_height e) "0.1" "3000.0") ;;
  eye <- getw CamPos ;;
  ball <- mMap_index "Ball" ;;
  call ball (GetPosition (fe_ballPosition e)) ;;
  call cam (lookAt eye (vadd (fe_ballPosition e) (vec3i 0 0 0)) (vec3i 0 1 0)) ;;
  shaders <- getw mShaders ;;
  for_each shaders (broadcast_camera e cam) ;;
  raining <- getw ActivateRain ;;
  when raining
    (drops <- getw mRainDrops ;;
     for_each drops (fun d =>
       call d AddLife ;;
       call d UpdateTransform ;;
       call d draw)) ;;
  objects <- getw mMap ;;
  for_each objects (fun it =>
    call (snd it) UpdateTransform ;;
    call (snd it) draw) ;;
  call ctx swapBuffers.

Definition render : frame_env -> M unit := render_every 30.

(** *** RenderWindow::exposeEvent *)

(** Of the OpenGL calls in the constructor, init, render, exposeEvent and
    keyPressEvent, glViewport in exposeEvent is the only one that can be
    reached before initializeOpenGLFunctions(): when init() returns at the
    failed makeCurrent it has not come to that call ("must call this to
    use OpenGL functions"), and exposeEvent goes on all the same.  An
    OpenGL function called before it is resolved is a call through a null
    pointer.  init() sets mInitialized immediately before
    initializeOpenGLFunctions() and nothing clears the flag, so after the
    guard of exposeEvent the flag tells whether the functions are
    resolved. *)
Definition gl_after_init (g : glcall) : M unit :=
  resolved <- getw mInitialized ;;
  if resolved then emit (GL g) else undefined.

Definition exposeEvent (e : expose_env) : M unit :=
  initialized <- getw mInitialized ;;
  when (negb initialized) (init (ee_init e)) ;;
  gl_after_init (glViewport (ee_width e) (ee_height e) (ee_devicePixelRatio e)) ;;
  when (ee_isExposed e)
    (timer <- getw mRenderTimer ;;
     call timer (start 16) ;;
     emit mTimeStart_start).

(** *** RenderWindow::keyPressEvent *)

(** The two rand() results as the arguments see them: [r1] is the result
    of the call made first, [r2] of the call made second; the pair is
    (the value in the x argument, the value in the z argument). *)
Definition rand_arguments (r1 r2 : Z) : Z * Z :=
  if first_argument_first then (r1, r2) else (r2, r1).

(** One pass of the rain loop.  The two rand() calls are arguments of one
    constructor call; which of them is made first is the compiler's
    choice. *)
Definition spawn_rain (i : Z) : M unit :=
  r1 <- c_rand ;;
  r2 <- c_rand ;;
  let RainSpawn := vec3i (-10 + Z.rem (fst (rand_arguments r1 r2)) 20) 5
                         (-10 + Z.rem (snd (rand_arguments r1 r2)) 20) in
  plain <- mShaders_index "PlainShader" ;;
  rainBall <- new (NewRollingBall "../VSIM_Oblig_3/ball.obj" plain) ;;
  call rainBall VisualObject_init ;;
  call rainBall (SetPosition RainSpawn) ;;
  call rainBall EnablePhysics ;;
  setw (fun s => set_mRainDrops (mRainDrops s ++ [rainBall]) s) ;;
  emit (qDebug (DebugSpawn i RainSpawn)).

Definition toggle_rain : M unit :=
  raining <- getw ActivateRain ;;
  if raining then
    setw (set_ActivateRain false) ;;
    setw (set_mRainDrops [])
  else
    n <- getw mRainAmount ;;
    for_count (Z.to_nat n) 0 spawn_rain ;;
    setw (set_ActivateRain true).

Definition keyPressEvent (key : Z) : M unit :=
  when (key =? Key_Escape)
    (mw <- getw mMainWindow ;; call mw close) ;;
  MovePos <- getw CamPos ;;
  when (key =? Key_W)
    (setw (fun s => set_CamPos (setZ (CamPos s) (F32.add (vz MovePos) (F32.of_int 1))) s)) ;;
  when (key =? Key_S)
    (setw (fun s => set_CamPos (setZ (CamPos s) (F32.sub (vz MovePos) (F32.of_int 1))) s)) ;;
  when (key =? Key_A)
    (setw (fun s => set_CamPos (setX (CamPos s) (F32.sub (vx MovePos) (F32.of_int 1))) s)) ;;
  when (key =? Key_D)
    (setw (fun s => set_CamPos (setX (CamPos s) (F32.add (vx MovePos) (F32.of_int 1))) s)) ;;
  when (key =? Key_Q)
    (setw (fun s => set_CamPos (setY (CamPos s) (F32.sub (vy MovePos) (F32.of_int 1))) s)) ;;
  when (key =? Key_E)
    (setw (fun s => set_CamPos (setY (CamPos s) (F32.add (vy MovePos) (F32.of_int 1))) s)) ;;
  when (key =? Key_I) toggle_rain.

(** *** Runs: the handlers as Qt invokes them, one after the other *)

Inductive invocation : Type :=
| ExposeEvent (e : expose_env)
| Render (e : frame_env)
| KeyPressEvent (key : Z).

Definition handle_every (period : Z) (c : invocation) : M unit :=
  match c with
  | ExposeEvent e => exposeEvent e
  | Render e => render_every period e
  | KeyPressEvent key => keyPressEvent key
  end.

Definition handle : invocation -> M unit := handle_every 30.

Definition run_every (period : Z) (cs : list invocation) : M unit :=
  for_each cs (handle_every period).

Definition run : list invocation -> M unit := run_every 30.

(** *** RenderWindow::checkForGLerrors *)

(** QOpenGLDebugMessage: its type (the enumeration of Qt) and its text. *)
Inductive DebugMessageType : Type :=
| InvalidType | ErrorType | DeprecatedBehaviorType | UndefinedBehaviorType
| PortabilityType | PerformanceType | OtherType | MarkerType
| GroupPushType | GroupPopType.

Record QOpenGLDebugMessage : Type := {
  message_type : DebugMessageType;
  message_text : string
}.

Definition is_OtherType (t : DebugMessageType) : bool :=
  match t with OtherType => true | _ => false end.

(** What checkForGLerrors reads: the messages the debug logger holds, and
    the codes successive calls of glGetError return (GL_NO_ERROR, that is
    0, once the list is used up).  Neither query is put into the trace.
    checkForGLerrors has no caller in renderwindow.cpp; its glGetError is
    taken as answered whenever it is asked. *)
Record errors_env : Type := {
  ge_loggedMessages : list QOpenGLDebugMessage;
  ge_glGetError : list N
}.

(** std::to_string on a GLenum *)
Definition to_string (n : N) : string := NilZero.string_of_uint (N.to_uint n).

Definition GL_INVALID_ENUM_text : string :=
  "GL_INVALID_ENUM - Given when an enumeration parameter is not a legal enumeration for that function.".

Definition GL_INVALID_VALUE_text : string :=
  "GL_INVALID_VALUE - Given when a value parameter is not a legal value for that function.".

Definition GL_INVALID_OPERATION_text : string :=
  "GL_INVALID_OPERATION - Given when the set of state for a command is not legal for the parameters given to that command. It is also given for commands where combinations of parameters define what the legal parameters are.".

(** The switch on the error code. *)
Definition describe_error (lg : ptr) (err : N) : M unit :=
  if (err =? 1280)%N then call lg (logText GL_INVALID_ENUM_text None)
  else if (err =? 1281)%N then call lg (logText GL_INVALID_VALUE_text None)
  else if (err =? 1282)%N then call lg (logText GL_INVALID_OPERATION_text None)
  else ret tt.

(** [while ((err = glGetError()) != GL_NO_ERROR) ...] *)
Fixpoint poll_glGetError (lg : ptr) (errs : list N) : M unit :=
  match errs with
  | [] => ret tt
  | err :: rest =>
      if (err =? 0)%N then ret tt
      else
        call lg (logText ("glGetError returns " ++ to_string err) (Some REALERROR)) ;;
        describe_error lg err ;;
        poll_glGetError lg rest
  end.

Definition checkForGLerrors (e : errors_env) : M unit :=
  dbg <- getw mOpenGLDebugLogger ;;
  lg <- getw mLogger ;;
  if negb (is_null dbg) then
    for_each (ge_loggedMessages e) (fun message =>
      when (negb (is_OtherType (message_type message)))
        (call lg (logText (message_text message) (Some REALERROR))))
  else
    poll_glGetError lg (ge_glGetError e).

End Handlers.


(** * Descriptions used in the statements *)

Section Descriptions.

Context {R : CRand} {order : ArgOrder}.
Open Scope prog_scope.

(** The world after calculateFramerate. *)
Definition after_framerate (period nsecElapsed : Z) (w : World) : World :=
  let w1 := emits [mTimeStart_nsecsElapsed nsecElapsed] w in
  if is_null (mMainWindow (win w)) then w1
  else if period <? frameCount w + 1
       then set_frameCount 0
              (emits [Call (mMainWindow (win w)) (statusBar_showMessage nsecElapsed)] w1)
       else set_frameCount (frameCount w + 1) w1.

Definition ptrs_ok (l : list ptr) : bool := forallb (fun p => negb (is_null p)) l.

(** A window that can draw a frame: the context and the camera exist, the
    registries and the rain hold no null pointer, and "Ball" is registered. *)
Definition running (w : World) : bool :=
  negb (is_null (mContext (win w))) && negb (is_null (mCamera (win w)))
  && ptrs_ok (map snd (mShaders (win w)))
  && ptrs_ok (map snd (mMap (win w)))
  && ptrs_ok (mRainDrops (win w))
  && match Registry.find "Ball" (mMap (win w)) with Some _ => true | None => false end.

(** What render() calls, in order, after the frame-rate diagnostic. *)
Definition broadcast_events (e : frame_env) (cam : ptr) (it : string * ptr) : list event :=
  [Call (snd it) use;
   Call (snd it) (SetUniformMatrix4fv mVmatrix "vMatrix");
   Call (snd it) (SetUniformMatrix4fv mPmatrix "pMatrix")] ++
  (if String.eqb (fst it) "LightShader"
   then [Call cam (Camera_GetPosition (fe_cameraPosition e));
         Call cam (Camera_GetPosition (fe_cameraPosition e));
         Call cam (Camera_GetPosition (fe_cameraPosition e));
         Call (snd it) (SetUniform3f (vx (fe_cameraPosition e)) (vy (fe_cameraPosition e))
                                     (vy (fe_cameraPosition e)) "cameraPosition")]
   else []).

Definition rain_events (d : ptr) : list event :=
  [Call d AddLife; Call d UpdateTransform; Call d draw].

Definition scene_events (it : string * ptr) : list event :=
  [Call (snd it) UpdateTransform; Call (snd it) draw].

Definition camera_events (e : frame_env) (s : RenderWindow) : list event :=
  [mTimeStart_restart;
   Call (mContext s) (makeCurrent (fe_makeCurrent e));
   GL initializeOpenGLFunctions;
   GL glClear_COLOR_DEPTH;
   Call (mCamera s) Camera_init;
   Call (mCamera s) (perspective 90 (fe_width e) (fe_height e) "0.1" "3000.0");
   Call (fst (Registry.index "Ball" (mMap s))) (GetPosition (fe_ballPosition e));
   Call (mCamera s) (lookAt (CamPos s) (vadd (fe_ballPosition e) (vec3i 0 0 0)) (vec3i 0 1 0))].

Definition frame_events (e : frame_env) (s : RenderWindow) : list event :=
  camera_events e s ++
  flat_map (broadcast_events e (mCamera s)) (mShaders s) ++
  (if ActivateRain s then flat_map rain_events (mRainDrops s) else []) ++
  flat_map scene_events (mMap s) ++
  [Call (mContext s) swapBuffers].

(** render() after its first statement. *)
Definition render_rest (e : frame_env) : M unit :=
  emit mTimeStart_restart ;;
  ctx <- getw mContext ;;
  call ctx (makeCurrent (fe_makeCurrent e)) ;;
  emit (GL initializeOpenGLFunctions) ;;
  emit (GL glClear_COLOR_DEPTH) ;;
  cam <- getw mCamera ;;
  call cam Camera_init ;;
  call cam (perspective 90 (fe_width e) (fe_height e) "0.1" "3000.0") ;;
  eye <- getw CamPos ;;
  ball <- mMap_index "Ball" ;;
  call ball (GetPosition (fe_ballPosition e)) ;;
  call cam (lookAt eye (vadd (fe_ballPosition e) (vec3i 0 0 0)) (vec3i 0 1 0)) ;;
  shaders <- getw mShaders ;;
  for_each shaders (broadcast_camera e cam) ;;
  raining <- getw ActivateRain ;;
  when raining
    (drops <- getw mRainDrops ;;
     for_each drops (fun d =>
       call d AddLife ;;
       call d UpdateTransform ;;
       call d draw)) ;;
  objects <- getw mMap ;;
  for_each objects (fun it =>
    call (snd it) UpdateTransform ;;
    call (snd it) draw) ;;
  call ctx swapBuffers.

(** What calculateFramerate adds to the trace. *)
Definition diagnostic_events (period nsecElapsed : Z) (w : World) : list event :=
  mTimeStart_nsecsElapsed nsecElapsed ::
  (if negb (is_null (mMainWindow (win w))) && (period <? frameCount w + 1)
   then [Call (mMainWindow (win w)) (statusBar_showMessage nsecElapsed)]
   else []).

(** The world of a run that is known to be defined. *)
Definition world_of (r : result unit) (otherwise : World) : World :=
  match r with
  | Ok _ w => w
  | Undefined => otherwise
  end.

Definition is_logText (ev : event) : bool :=
  match ev with
  | Call _ (logText _ _) => true
  | _ => false
  end.

(** The calls a trace makes to init(), UpdateTransform() and draw() of
    drawable objects, in order. *)
Definition is_drawable_call (ev : event) : bool :=
  match ev with
  | Call _ VisualObject_init => true
  | Call _ UpdateTransform => true
  | Call _ draw => true
  | _ => false
  end.

Definition drawable_calls (t : list event) : list event := filter is_drawable_call t.

Definition is_showMessage (ev : event) : bool :=
  match ev with
  | Call _ (statusBar_showMessage _) => true
  | _ => false
  end.

(** The status-bar messages of a trace. *)
Definition status_messages (t : list event) : list event := filter is_showMessage t.

(** The position of one rain ball and the generator after its two draws;
    which draw goes to x and which to z follows the order in which the
    compiler evaluates the two arguments. *)
Definition spawn_position (g : rand_state) : QVector3D * rand_state :=
  let r1 := fst (rand g) in
  let r2 := fst (rand (snd (rand g))) in
  (vec3i (-10 + Z.rem (fst (rand_arguments r1 r2)) 20) 5
         (-10 + Z.rem (snd (rand_arguments r1 r2)) 20),
   snd (rand (snd (rand g)))).

(** The positions of [n] rain balls spawned one after the other. *)
Fixpoint rain_positions (n : nat) (g : rand_state) : list QVector3D :=
  match n with
  | O => []
  | S n' => fst (spawn_position g) :: rain_positions n' (snd (spawn_position g))
  end.

Fixpoint rng_after_rain (n : nat) (g : rand_state) : rand_state :=
  match n with
  | O => g
  | S n' => rng_after_rain n' (snd (spawn_position g))
  end.

(** What the spawning of ball number [i] at address [a] calls. *)
Definition spawn_events (plain : ptr) (iap : nat * (nat * QVector3D)) : list event :=
  [New (fst (snd iap)) (NewRollingBall "../VSIM_Oblig_3/ball.obj" plain);
   Call (addr (fst (snd iap))) VisualObject_init;
   Call (addr (fst (snd iap))) (SetPosition (snd (snd iap)));
   Call (addr (fst (snd iap))) EnablePhysics;
   qDebug (DebugSpawn (Z.of_nat (fst iap)) (snd (snd iap)))].

(** The world after one pass of the rain loop. *)
Definition spawn_step (i : Z) (w : World) : World :=
  let a := List.length (heap w) in
  let plain := fst (Registry.index "PlainShader" (mShaders (win w))) in
  let pos := fst (spawn_position (rng w)) in
  mkWorld
    (set_mRainDrops (mRainDrops (win w) ++ [addr a])
       (set_mShaders (snd (Registry.index "PlainShader" (mShaders (win w)))) (win w)))
    (frameCount w)
    (heap w ++ [NewRollingBall "../VSIM_Oblig_3/ball.obj" plain])
    (snd (spawn_position (rng w)))
    (out w ++ [New a (NewRollingBall "../VSIM_Oblig_3/ball.obj" plain);
               Call (addr a) VisualObject_init;
               Call (addr a) (SetPosition pos);
               Call (addr a) EnablePhysics;
               qDebug (DebugSpawn i pos)]).

Fixpoint spawn_loop (n : nat) (i : Z) (w : World) : World :=
  match n with
  | O => w
  | S n' => spawn_loop n' (i + 1) (spawn_step i w)
  end.

(** A spawn position: whole-numbered x and z in [-10, 9], height 5. *)
Definition in_rain_square (v : QVector3D) : Prop :=
  exists x z : Z, v = vec3i x 5 z /\ -10 <= x <= 9 /\ -10 <= z <= 9.

Definition is_SetPosition (ev : event) : option QVector3D :=
  match ev with
  | Call _ (SetPosition v) => Some v
  | _ => None
  end.

(** The positions a trace hands to SetPosition, in order. *)
Fixpoint set_positions (t : list event) : list QVector3D :=
  match t with
  | [] => []
  | ev :: t' => match is_SetPosition ev with
                | Some v => v :: set_positions t'
                | None => set_positions t'
                end
  end.

(** [m] leaves the view [f] of the world as it was, whenever it returns. *)
Definition keeps {A X : Type} (f : World -> X) (m : M A) : Prop :=
  forall w, match m w with
            | Ok _ w' => f w' = f w
            | Undefined => True
            end.

(** The rain state and the generator it draws from. *)
Definition rain_view (w : World) : bool * Z * list ptr * rand_state :=
  (ActivateRain (win w), mRainAmount (win w), mRainDrops (win w), rng w).

(** The flag is set exactly when there are rain drops. *)
Definition rain_consistent (w : World) : Prop :=
  ActivateRain (win w) = true <-> mRainDrops (win w) <> [].

Definition is_toggle (c : invocation) : bool :=
  match c with
  | KeyPressEvent key => key =? Key_I
  | _ => false
  end.

(** The trace without the status-bar messages of the diagnostic. *)
Definition rendered (t : list event) : list event :=
  filter (fun ev => negb (is_showMessage ev)) t.

(** Two worlds that differ at most in the frame counter and in the
    status-bar messages shown so far. *)
Definition same_scene (w1 w2 : World) : Prop :=
  win w1 = win w2 /\ heap w1 = heap w2 /\ rng w1 = rng w2 /\
  rendered (out w1) = rendered (out w2).

Definition same_outcome {A : Type} (r1 r2 : result A) : Prop :=
  match r1, r2 with
  | Ok a1 w1, Ok a2 w2 => a1 = a2 /\ same_scene w1 w2
  | Undefined, Undefined => True
  | _, _ => False
  end.

(** [m1] and [m2] cannot be told apart by the scene. *)
Definition alike {A : Type} (m1 m2 : M A) : Prop :=
  forall w1 w2, same_scene w1 w2 -> same_outcome (m1 w1) (m2 w2).

(** An entry into init() shows in the trace as its connect() call. *)
Definition is_init_entry (ev : event) : bool :=
  match ev with
  | Connect_timeout_render _ => true
  | _ => false
  end.

Definition init_entries (t : list event) : nat := List.length (filter is_init_entry t).

(** The window as the constructor leaves it when the context could be
    created. *)
Definition constructed (hd : header_defaults) (mainWindow : ptr) : World :=
  world_of (RenderWindow_ctor true (process_start hd mainWindow))
           (process_start hd mainWindow).

(** What exposeEvent calls after its initialisation check. *)
Definition expose_events (e : expose_env) (timer : ptr) : list event :=
  GL (glViewport (ee_width e) (ee_height e) (ee_devicePixelRatio e)) ::
  (if ee_isExposed e then [Call timer (start 16); mTimeStart_start] else []).

(** How often the trace of a world shows an entry into init(). *)
Definition entries_view (w : World) : nat := init_entries (out w).

(** binary_round_aux after its first shift: rounding, the second shift
    and the range check. *)
Definition rtail (s : bool) (mrs' : shr_record) (e' : Z) : spec_float :=
  let '(mrs'', e'') :=
    shr_fexp F32.prec F32.emax (round_nearest_even (shr_m mrs') (loc_of_shr_record mrs')) e' loc_Exact in
  match shr_m mrs'' with
  | Z0 => S754_zero s
  | Zpos m => if e'' <=? F32.emax - F32.prec then S754_finite s m e'' else S754_infinity s
  | Zneg _ => S754_nan
  end.

(** The six camera keys. *)
Definition is_movement (key : Z) : bool :=
  (key =? Key_W) || (key =? Key_S) || (key =? Key_A) ||
  (key =? Key_D) || (key =? Key_Q) || (key =? Key_E).

(** The unit step of a key on each axis. *)
Definition step_x (key : Z) : Z :=
  if key =? Key_D then 1 else if key =? Key_A then -1 else 0.
Definition step_y (key : Z) : Z :=
  if key =? Key_E then 1 else if key =? Key_Q then -1 else 0.
Definition step_z (key : Z) : Z :=
  if key =? Key_W then 1 else if key =? Key_S then -1 else 0.

Definition total (step : Z -> Z) (keys : list Z) : Z :=
  fold_right Z.add 0 (map step keys).

(** CamPos after a camera key, as keyPressEvent computes it in floats. *)
Definition moved (key : Z) (v : QVector3D) : QVector3D :=
  if key =? Key_W then setZ v (F32.add (vz v) (F32.of_int 1))
  else if key =? Key_S then setZ v (F32.sub (vz v) (F32.of_int 1))
  else if key =? Key_A then setX v (F32.sub (vx v) (F32.of_int 1))
  else if key =? Key_D then setX v (F32.add (vx v) (F32.of_int 1))
  else if key =? Key_Q then setY v (F32.sub (vy v) (F32.of_int 1))
  else if key =? Key_E then setY v (F32.add (vy v) (F32.of_int 1))
  else v.

(** The largest magnitude up to which every whole number is a float. *)
Definition exact_range : Z := 16777216.

(** ** Descriptions for the further properties *)

(** The windows on which render() is defined: context and camera exist,
    "Ball" is registered and not null, no registered shader or object is
    null, and while it rains no rain drop is null. *)
Definition drawable (w : World) : bool :=
  negb (is_null (mContext (win w)))
  && negb (is_null (mCamera (win w)))
  && match Registry.find "Ball" (mMap (win w)) with
     | Some ball => negb (is_null ball)
     | None => false
     end
  && ptrs_ok (map snd (mShaders (win w)))
  && (negb (ActivateRain (win w)) || ptrs_ok (mRainDrops (win w)))
  && ptrs_ok (map snd (mMap (win w))).

(** An initialised window that can be driven by any handler: it is
    running, its timer and main window exist, and "PlainShader" is
    registered. *)
Definition ready (w : World) : bool :=
  running w
  && mInitialized (win w)
  && negb (is_null (mRenderTimer (win w)))
  && negb (is_null (mMainWindow (win w)))
  && match Registry.find "PlainShader" (mShaders (win w)) with
     | Some _ => true
     | None => false
     end.

(** The members a key press never writes. *)
Definition beyond_keys (w : World) :
  ptr * bool * ptr * ptr * ptr * ptr * ptr * Registry.t * ptr * Z * Z :=
  (mContext (win w), mInitialized (win w), mMainWindow (win w), mRenderTimer (win w),
   mLogger (win w), mOpenGLDebugLogger (win w), mCamera (win w), mMap (win w),
   mBall (win w), mRainAmount (win w), frameCount w).

(** The codes glGetError hands out before its first GL_NO_ERROR. *)
Fixpoint pending_errors (errs : list N) : list N :=
  match errs with
  | [] => []
  | err :: rest => if (err =? 0)%N then [] else err :: pending_errors rest
  end.

(** What the polling loop logs for one error code. *)
Definition error_events (lg : ptr) (err : N) : list event :=
  Call lg (logText ("glGetError returns " ++ to_string err) (Some REALERROR)) ::
  (if (err =? 1280)%N then [Call lg (logText GL_INVALID_ENUM_text None)]
   else if (err =? 1281)%N then [Call lg (logText GL_INVALID_VALUE_text None)]
   else if (err =? 1282)%N then [Call lg (logText GL_INVALID_OPERATION_text None)]
   else []).

(** What the debug-logger branch logs: the messages that are not of
    OtherType, each as REALERROR. *)
Definition message_events (lg : ptr) (msgs : list QOpenGLDebugMessage) : list event :=
  map (fun m => Call lg (logText (message_text m) (Some REALERROR)))
      (filter (fun m => negb (is_OtherType (message_type m))) msgs).


(** The calls that wire and initialise the scene objects. *)
Definition is_setup_call (ev : event) : bool :=
  match ev with
  | Call _ (SetSurface _) => true
  | Call _ VisualObject_init => true
  | _ => false
  end.

(** [m] keeps the property [P] of the world, whenever it returns. *)
Definition holds {A : Type} (P : World -> Prop) (m : M A) : Prop :=
  forall w, P w -> match m w with
                   | Ok _ w' => P w'
                   | Undefined => True
                   end.

(** "PlainShader" is registered with a null pointer. *)
Definition shader_lost (w : World) : Prop :=
  Registry.find "PlainShader" (mShaders (win w)) = Some nullptr.

(** Whether the window counts as initialised. *)
Definition initialized_view (w : World) : bool := mInitialized (win w).

(** A position with its x and z exchanged. *)
Definition swap_xz (p : QVector3D) : QVector3D := vec3 (vz p) (vy p) (vx p).

End Descriptions.

(** ** A sample run on the ISO C generator, the arguments of a call
    evaluated from the last to the first *)

#[export] Existing Instance right_to_left.

Definition sample_defaults : header_defaults :=
  {| hd_CamPos := vec3i 0 0 0; hd_ActivateRain := false; hd_mRainAmount := 18 |}.

Definition sample_init : init_env :=
  {| ie_logger := extern 1; ie_makeCurrent := true;
     ie_vendor := "vendor"; ie_renderer := "renderer"; ie_version := "4.1";
     ie_debugContext := false; ie_khr_debug := true; ie_debugLoggerStarted := true |}.

Definition sample_expose : expose_env :=
  {| ee_init := sample_init; ee_devicePixelRatio := F32.of_int 1;
     ee_width := 800; ee_height := 600; ee_isExposed := true |}.

Definition sample_frame : frame_env :=
  {| fe_nsecsElapsed := 16000000; fe_makeCurrent := true;
     fe_width := 800; fe_height := 600;
     fe_ballPosition := vec3i 1 2 3; fe_cameraPosition := vec3i 4 5 6 |}.

(** The same frame with makeCurrent failing. *)
Definition failing_frame : frame_env :=
  {| fe_nsecsElapsed := 16000000; fe_makeCurrent := false;
     fe_width := 800; fe_height := 600;
     fe_ballPosition := vec3i 1 2 3; fe_cameraPosition := vec3i 4 5 6 |}.

Definition sample_start : @World iso_c_rand :=
  process_start sample_defaults (extern 0).

(** The window after its constructor and the first exposeEvent. *)
Definition sample_running : @World iso_c_rand :=
  Eval vm_compute in
    world_of (bind (RenderWindow_ctor true) (fun _ => exposeEvent sample_expose) sample_start)
             sample_start.

(** The sample window after one press of the rain key. *)
Definition sample_rained : @World iso_c_rand :=
  Eval vm_compute in world_of (keyPressEvent Key_I sample_running) sample_running.

(** The same with the arguments evaluated from the first to the last. *)
Definition sample_rained_left_to_right : @World iso_c_rand :=
  Eval vm_compute in
    world_of (@keyPressEvent iso_c_rand left_to_right Key_I sample_running) sample_running.

(** The sample window after a camera step and one frame, and after the
    rain key pressed then. *)
Definition sample_moved : @World iso_c_rand :=
  Eval vm_compute in
    world_of (run [KeyPressEvent Key_W; Render sample_frame] sample_running) sample_running.

Definition sample_moved_rained : @World iso_c_rand :=
  Eval vm_compute in world_of (keyPressEvent Key_I sample_moved) sample_moved.

(** An exposed notification at which makeCurrent fails. *)
Definition failing_init : init_env :=
  {| ie_logger := extern 1; ie_makeCurrent := false;
     ie_vendor := "vendor"; ie_renderer := "renderer"; ie_version := "4.1";
     ie_debugContext := false; ie_khr_debug := true; ie_debugLoggerStarted := true |}.

Definition failing_expose : expose_env :=
  {| ee_init := failing_init; ee_devicePixelRatio := F32.of_int 1;
     ee_width := 800; ee_height := 600; ee_isExposed := true |}.

(** The sample window with the camera 2^24 units out on the z axis, and
    after the keys W, S and S, W pressed there. *)
Definition sample_far : @World iso_c_rand :=
  Eval vm_compute in
    set_win (set_CamPos (vec3i 0 0 16777216) (win sample_running)) sample_running.

Definition sample_far_W_S : @World iso_c_rand :=
  Eval vm_compute in
    world_of (for_each [Key_W; Key_S] keyPressEvent sample_far) sample_far.

Definition sample_far_S_W : @World iso_c_rand :=
  Eval vm_compute in
    world_of (for_each [Key_S; Key_W] keyPressEvent sample_far) sample_far.

(** The sample window as its constructor leaves it, and after the rain
    key followed by the first exposeEvent. *)
Definition sample_constructed : @World iso_c_rand :=
  Eval vm_compute in world_of (RenderWindow_ctor true sample_start) sample_start.

Definition sample_rained_early : @World iso_c_rand :=
  Eval vm_compute in
    world_of (run [KeyPressEvent Key_I; ExposeEvent sample_expose] sample_constructed)
             sample_constructed.

(** A context without GL_KHR_debug, and the sample window initialised on
    it. *)
Definition plain_init : init_env :=
  {| ie_logger := extern 1; ie_makeCurrent := true;
     ie_vendor := "vendor"; ie_renderer := "renderer"; ie_version := "4.1";
     ie_debugContext := false; ie_khr_debug := false; ie_debugLoggerStarted := false |}.

Definition plain_expose : expose_env :=
  {| ee_init := plain_init; ee_devicePixelRatio := F32.of_int 1;
     ee_width := 800; ee_height := 600; ee_isExposed := true |}.

Definition sample_polling : @World iso_c_rand :=
  Eval vm_compute in
    world_of (bind (RenderWindow_ctor true) (fun _ => exposeEvent plain_expose) sample_start)
             sample_start.

(** Three logged messages and five pending error codes. *)
Definition sample_errors : errors_env :=
  {| ge_loggedMessages :=
       [ {| message_type := ErrorType; message_text := "shader failed" |};
         {| message_type := OtherType; message_text := "buffer info" |};
         {| message_type := PerformanceType; message_text := "slow path" |} ];
     ge_glGetError := [1280; 1285; 1282; 0; 1281]%N |}.

(** * Whole numbers in single precision *)

Lemma digits2_size : forall p, digits2_pos p = Pos.size p.
Proof. induction p; cbn; congruence. Qed.

Lemma digits_bounds : forall q,
  Z.pos q < 2 ^ Z.pos (digits2_pos q) /\ 2 ^ Z.pos (digits2_pos q) <= 2 * Z.pos q.
Proof.
  intro q. rewrite digits2_size. split.
  - pose proof (Pos.size_gt q) as H. apply Pos2Z.pos_lt_pos in H.
    now rewrite Pos2Z.inj_pow in H.
  - pose proof (Pos.size_le q) as H. apply Pos2Z.pos_le_pos in H.
    rewrite Pos2Z.inj_pow in H. exact H.
Qed.

Lemma digits_le_25 : forall q, Z.pos q <= 16777216 -> Z.pos (digits2_pos q) <= 25.
Proof.
  intros q H. destruct (digits_bounds q) as [_ H2].
  apply (Z.pow_le_mono_r_iff 2); [lia|lia|].
  change (2 ^ 25) with 33554432. lia.
Qed.


Lemma binary_round_aux_tail : forall s mx ex lx,
  binary_round_aux F32.prec F32.emax s mx ex lx =
  rtail s (fst (shr_fexp F32.prec F32.emax mx ex lx)) (snd (shr_fexp F32.prec F32.emax mx ex lx)).
Proof.
  intros. unfold binary_round_aux, rtail.
  now destruct (shr_fexp F32.prec F32.emax mx ex lx).
Qed.

Lemma rtail_canonical : forall s m e,
  digits2_pos m = 24%positive -> -149 <= e <= 104 ->
  rtail s {| shr_m := Z.pos m; shr_r := false; shr_s := false |} e = S754_finite s m e.
Proof.
  intros s m e Hd He. unfold rtail.
  cbn [shr_m shr_r shr_s loc_of_shr_record round_nearest_even].
  unfold shr_fexp. cbn [Zdigits2]. rewrite Hd.
  unfold fexp, emin, F32.prec, F32.emax.
  replace (Z.max (24 + e - 24) (3 - 128 - 24) - e) with 0 by lia.
  cbn [shr shr_record_of_loc shr_m].
  destruct (Z.leb_spec e (128 - 24)); [reflexivity|lia].
Qed.


Ltac int_rep_case s q Hd c :=
  let m := eval cbn in (fst (shl_align q 0 (Z.pos c - 24))) in
  let e := eval vm_compute in (Z.pos c - 24) in
  exists m, e;
  assert (Hm : digits2_pos m = 24%positive)
    by (cbn [digits2_pos]; rewrite Hd; reflexivity);
  repeat split;
  [ unfold binary_round; rewrite Hd; cbn -[binary_round_aux];
    rewrite binary_round_aux_tail; unfold shr_fexp; cbn [Zdigits2]; rewrite Hm;
    cbn -[rtail]; apply rtail_canonical; [exact Hm|lia]
  | unfold binary_round; cbn [Pos.iter digits2_pos]; rewrite Hd; cbn -[binary_round_aux];
    rewrite binary_round_aux_tail; unfold shr_fexp; cbn [Zdigits2 digits2_pos]; rewrite Hd;
    cbn -[rtail]; apply rtail_canonical; [exact Hm|lia] ].

Lemma int_rep : forall s q, Z.pos q <= 16777216 ->
  exists m e,
    binary_round F32.prec F32.emax s q 0 = S754_finite s m e /\
    binary_round F32.prec F32.emax s (Pos.iter xO q 23) (-23) = S754_finite s m e /\
    Z.min e (-23) = -23 /\
    fst (shl_align m e (-23)) = Pos.iter xO q 23.
Proof.
  intros s q Hq. pose proof (digits_le_25 q Hq) as Hd25.
  pose proof (digits_bounds q) as [_ Hlow].
  remember (digits2_pos q) as d eqn:Hd. symmetry in Hd.
  do 5 (try destruct d as [d|d|]); try lia;
    lazymatch type of Hd with
    | _ = 25%positive =>
        assert (q = 16777216%positive) as ->
          by (change (2 ^ Z.pos 25) with 33554432 in Hlow; lia);
        exists 8388608%positive, 1; destruct s; repeat split
    | _ = ?c => int_rep_case s q Hd c
    end.
Qed.

Lemma of_int_pos : forall q, F32.of_int (Z.pos q) = binary_round F32.prec F32.emax false q 0.
Proof. reflexivity. Qed.

Lemma of_int_neg : forall q, F32.of_int (Z.neg q) = binary_round F32.prec F32.emax true q 0.
Proof. reflexivity. Qed.

Lemma shifted_23 : forall q, Z.pos (Pos.iter xO q 23) = Z.pos q * 8388608.
Proof. intro q. cbn [Pos.iter]. lia. Qed.

(** binary_normalize on a multiple of 2^23 at exponent -23 is the
    conversion of the integer. *)
Lemma normalize_shifted : forall n,
  -16777216 <= n <= 16777216 ->
  binary_normalize F32.prec F32.emax (n * 8388608) (-23) false = F32.of_int n.
Proof.
  intros [|q|q] Hn.
  - reflexivity.
  - destruct (int_rep false q) as (m & e & H0 & H23 & _); [lia|].
    rewrite of_int_pos, H0, <- H23.
    replace (Z.pos q * 8388608) with (Z.pos (Pos.iter xO q 23)) by apply shifted_23.
    reflexivity.
  - destruct (int_rep true q) as (m & e & H0 & H23 & _); [lia|].
    rewrite of_int_neg, H0, <- H23.
    replace (Z.neg q * 8388608) with (Z.neg (Pos.iter xO q 23))
      by (pose proof (shifted_23 q); lia).
    reflexivity.
Qed.

(** The conversion of a nonzero integer in range, aligned to exponent -23. *)
Lemma of_int_aligned : forall n,
  -16777216 <= n <= 16777216 -> n <> 0 ->
  exists s m e,
    F32.of_int n = S754_finite s m e /\
    Z.min e (-23) = -23 /\
    cond_Zopp s (Z.pos (fst (shl_align m e (-23)))) = n * 8388608.
Proof.
  intros [|q|q] Hn Hz; [contradiction| |].
  - destruct (int_rep false q) as (m & e & H0 & _ & Hmin & Hal); [lia|].
    exists false, m, e. rewrite of_int_pos, H0, Hal, shifted_23. now repeat split.
  - destruct (int_rep true q) as (m & e & H0 & _ & Hmin & Hal); [lia|].
    exists true, m, e. rewrite of_int_neg, H0, Hal. cbn [cond_Zopp].
    rewrite shifted_23. repeat split; try assumption; lia.
Qed.

Lemma add_one : forall n,
  -16777216 <= n < 16777216 -> F32.add (F32.of_int n) (F32.of_int 1) = F32.of_int (n + 1).
Proof.
  intros n Hn. destruct (Z.eq_dec n 0) as [->|Hz]; [reflexivity|].
  destruct (of_int_aligned n) as (s & m & e & Hrep & Hmin & Hal); [lia|assumption|].
  rewrite Hrep. change (F32.of_int 1) with (S754_finite false 8388608 (-23)).
  unfold F32.add, SFadd. rewrite Hmin, Hal.
  change (cond_Zopp false (Z.pos (fst (shl_align 8388608 (-23) (-23))))) with 8388608.
  replace (n * 8388608 + 8388608) with ((n + 1) * 8388608) by lia.
  apply normalize_shifted. lia.
Qed.

Lemma sub_one : forall n,
  -16777216 < n <= 16777216 -> F32.sub (F32.of_int n) (F32.of_int 1) = F32.of_int (n - 1).
Proof.
  intros n Hn. destruct (Z.eq_dec n 0) as [->|Hz]; [reflexivity|].
  destruct (of_int_aligned n) as (s & m & e & Hrep & Hmin & Hal); [lia|assumption|].
  rewrite Hrep. change (F32.of_int 1) with (S754_finite false 8388608 (-23)).
  unfold F32.sub, SFsub. rewrite Hmin, Hal.
  change (cond_Zopp false (Z.pos (fst (shl_align 8388608 (-23) (-23))))) with 8388608.
  replace (n * 8388608 - 8388608) with ((n - 1) * 8388608) by lia.
  apply normalize_shifted. lia.
Qed.

(** * Properties *)

Section Frames.

Context {R : CRand} {order : ArgOrder}.
Open Scope prog_scope.

Lemma emits_nil : forall w, emits [] w = w.
Proof. intros [s c h g o]. unfold emits, set_out. cbn. now rewrite app_nil_r. Qed.

Lemma emits_app : forall t1 t2 w, emits t2 (emits t1 w) = emits (t1 ++ t2) w.
Proof. intros t1 t2 [s c h g o]. unfold emits, set_out. cbn. now rewrite app_assoc. Qed.

Lemma call_ok : forall p m w,
  is_null p = false -> call p m w = Ok tt (emits [Call p m] w).
Proof. intros [|a|n] m w H; [discriminate | reflexivity | reflexivity]. Qed.

Lemma call_null : forall p m w, is_null p = true -> call p m w = Undefined.
Proof. intros [|a|n] m w H; [reflexivity | discriminate | discriminate]. Qed.

Lemma bind_ok : forall A B (m : M A) (f : A -> M B) w a w',
  m w = Ok a w' -> bind m f w = f a w'.
Proof. intros A B m f w a w' H. unfold bind. now rewrite H. Qed.

Lemma bind_undefined : forall A B (m : M A) (f : A -> M B) w,
  m w = Undefined -> bind m f w = Undefined.
Proof. intros A B m f w H. unfold bind. now rewrite H. Qed.

Lemma is_null_cases : forall p, is_null p = true -> p = nullptr.
Proof. now intros [|a|n]. Qed.

Lemma for_each_emits : forall A (tr : A -> list event) (body : A -> M unit) (l : list A),
  (forall x w, In x l -> body x w = Ok tt (emits (tr x) w)) ->
  forall w, for_each l body w = Ok tt (emits (flat_map tr l) w).
Proof.
  intros A tr body l. induction l as [|x l IH]; intros Hb w.
  - cbn. now rewrite emits_nil.
  - cbn [for_each flat_map]. rewrite (bind_ok _ _ _ _ _ _ _ (Hb x w (or_introl eq_refl))).
    rewrite IH by (intros; apply Hb; now right).
    now rewrite emits_app.
Qed.

Lemma calculateFramerate_every_eq : forall period n w,
  calculateFramerate_every period n w = Ok tt (after_framerate period n w).
Proof.
  intros period n [s c h g o]. unfold calculateFramerate_every, after_framerate.
  cbn. destruct (mMainWindow s) as [|a|x]; cbn; try reflexivity;
  destruct (period <? c + 1); reflexivity.
Qed.

Lemma set_win_same : forall w, set_win (win w) w = w.
Proof. now intros []. Qed.

Lemma set_mMap_same : forall s, set_mMap (mMap s) s = s.
Proof. now intros []. Qed.

Lemma set_mShaders_same : forall s, set_mShaders (mShaders s) s = s.
Proof. now intros []. Qed.

Lemma mMap_index_found : forall k v w,
  Registry.find k (mMap (win w)) = Some v -> mMap_index k w = Ok v w.
Proof.
  intros k v w H. unfold mMap_index, bind, getw, gets, Registry.index.
  rewrite H. unfold setw, modify, ret.
  now rewrite set_mMap_same, set_win_same.
Qed.

Lemma mShaders_index_found : forall k v w,
  Registry.find k (mShaders (win w)) = Some v -> mShaders_index k w = Ok v w.
Proof.
  intros k v w H. unfold mShaders_index, bind, getw, gets, Registry.index.
  rewrite H. unfold setw, modify, ret.
  now rewrite set_mShaders_same, set_win_same.
Qed.

Lemma find_In : forall k v m, Registry.find k m = Some v -> In (k, v) m.
Proof.
  intros k v m. induction m as [|[k' v'] m IH]; cbn; [discriminate|].
  destruct (String.eqb_spec k k') as [->|_].
  - intros [= ->]. now left.
  - intro H. right. now apply IH.
Qed.

Lemma ptrs_ok_In : forall l p, ptrs_ok l = true -> In p l -> is_null p = false.
Proof.
  intros l p H Hin. unfold ptrs_ok in H. rewrite forallb_forall in H.
  apply H in Hin. now destruct (is_null p).
Qed.

Lemma render_every_split : forall period e,
  render_every period e =
  (calculateFramerate_every period (fe_nsecsElapsed e) ;; render_rest e).
Proof. reflexivity. Qed.

Ltac call_step H :=
  rewrite (bind_ok _ _ _ _ _ _ _ (call_ok _ _ _ H)).

Lemma broadcast_camera_eq : forall e cam it w,
  is_null cam = false -> is_null (snd it) = false ->
  broadcast_camera e cam it w = Ok tt (emits (broadcast_events e cam it) w).
Proof.
  intros e cam it w Hc Hs. unfold broadcast_camera, broadcast_events.
  do 3 call_step Hs. rewrite !emits_app. cbn [app].
  destruct (String.eqb (fst it) "LightShader"); cbn [when].
  - do 3 call_step Hc. rewrite call_ok by assumption. now rewrite !emits_app.
  - reflexivity.
Qed.

Lemma rain_pass_eq : forall d w,
  is_null d = false ->
  (call d AddLife ;; call d UpdateTransform ;; call d draw) w
  = Ok tt (emits (rain_events d) w).
Proof.
  intros d w H. do 2 call_step H. rewrite call_ok by assumption.
  now rewrite !emits_app.
Qed.

Lemma rain_part_eq : forall (b : bool) w,
  ptrs_ok (mRainDrops (win w)) = true ->
  when b (drops <- getw mRainDrops ;;
          for_each drops (fun d => call d AddLife ;; call d UpdateTransform ;; call d draw)) w
  = Ok tt (emits (if b then flat_map rain_events (mRainDrops (win w)) else []) w).
Proof.
  intros b w Hdrops. destruct b; cbn [when].
  - erewrite bind_ok by reflexivity.
    apply for_each_emits. intros d w' Hin. apply rain_pass_eq.
    now apply (ptrs_ok_In _ _ Hdrops).
  - unfold ret. now rewrite emits_nil.
Qed.

Lemma scene_pass_eq : forall (it : string * ptr) w,
  is_null (snd it) = false ->
  (call (snd it) UpdateTransform ;; call (snd it) draw) w
  = Ok tt (emits (scene_events it) w).
Proof.
  intros it w H. call_step H. rewrite call_ok by assumption.
  now rewrite !emits_app.
Qed.

Lemma running_inv : forall w,
  running w = true ->
  is_null (mContext (win w)) = false /\
  is_null (mCamera (win w)) = false /\
  ptrs_ok (map snd (mShaders (win w))) = true /\
  ptrs_ok (map snd (mMap (win w))) = true /\
  ptrs_ok (mRainDrops (win w)) = true /\
  exists ball, Registry.find "Ball" (mMap (win w)) = Some ball /\ is_null ball = false.
Proof.
  intros w H. unfold running in H.
  apply andb_prop in H as [H Hball].
  apply andb_prop in H as [H Hdrops].
  apply andb_prop in H as [H Hmap].
  apply andb_prop in H as [H Hsh].
  apply andb_prop in H as [Hctx Hcam].
  apply negb_true_iff in Hctx, Hcam.
  repeat split; try assumption.
  destruct (Registry.find "Ball" (mMap (win w))) as [ball|] eqn:E; [|discriminate].
  exists ball. split; [reflexivity|].
  apply (ptrs_ok_In _ _ Hmap). apply find_In in E.
  change ball with (snd ("Ball"%string, ball)). now apply in_map.
Qed.

Lemma render_rest_running : forall e w,
  running w = true ->
  render_rest e w = Ok tt (emits (frame_events e (win w)) w).
Proof.
  intros e w Hrun.
  destruct (running_inv w Hrun) as (Hctx & Hcam & Hsh & Hmap & Hdrops & ball & Hball & Hb).
  unfold render_rest, frame_events, camera_events, Registry.index.
  rewrite Hball. cbn [fst].
  erewrite bind_ok by reflexivity.
  erewrite bind_ok by reflexivity. cbn [win emits set_out].
  call_step Hctx.
  do 2 (erewrite bind_ok by reflexivity).
  erewrite bind_ok by reflexivity. cbn [win emits set_out].
  do 2 call_step Hcam.
  erewrite bind_ok by reflexivity.
  erewrite bind_ok by (apply mMap_index_found; exact Hball).
  call_step Hb. call_step Hcam.
  erewrite bind_ok by reflexivity. cbn [win emits set_out].
  erewrite bind_ok.
  2:{ apply for_each_emits with (tr := broadcast_events e (mCamera (win w))).
      intros it w' Hin. apply broadcast_camera_eq; [assumption|].
      apply (ptrs_ok_In _ _ Hsh). now apply in_map. }
  erewrite bind_ok by reflexivity. cbn [win emits set_out].
  erewrite bind_ok by (apply rain_part_eq; exact Hdrops).
  cbn [win emits set_out].
  erewrite bind_ok by reflexivity. cbn [win emits set_out].
  erewrite bind_ok.
  2:{ apply for_each_emits with (tr := scene_events).
      intros it w' Hin. apply scene_pass_eq.
      apply (ptrs_ok_In _ _ Hmap). now apply in_map. }
  rewrite call_ok by assumption.
  rewrite !emits_app. reflexivity.
Qed.

Lemma win_after_framerate : forall period n w,
  win (after_framerate period n w) = win w.
Proof.
  intros period n w. unfold after_framerate.
  destruct (is_null (mMainWindow (win w))); [reflexivity|].
  destruct (period <? frameCount w + 1); reflexivity.
Qed.

Lemma running_same_win : forall w w', win w' = win w -> running w' = running w.
Proof. intros w w' H. unfold running. now rewrite H. Qed.

(** A frame on a running window: the diagnostic, then the frame's calls. *)
Lemma render_every_running : forall period e w,
  running w = true ->
  render_every period e w =
  Ok tt (emits (frame_events e (win w)) (after_framerate period (fe_nsecsElapsed e) w)).
Proof.
  intros period e w Hrun. rewrite render_every_split.
  rewrite (bind_ok _ _ _ _ _ _ _ (calculateFramerate_every_eq _ _ _)).
  rewrite render_rest_running.
  - now rewrite win_after_framerate.
  - rewrite (running_same_win w); [assumption|apply win_after_framerate].
Qed.

Lemma out_after_framerate : forall period n w,
  out (after_framerate period n w) = out w ++ diagnostic_events period n w.
Proof.
  intros period n w. unfold after_framerate, diagnostic_events.
  destruct (is_null (mMainWindow (win w))); cbn [negb andb]; [reflexivity|].
  destruct (period <? frameCount w + 1); cbn; [|reflexivity].
  now rewrite <- app_assoc.
Qed.

Lemma out_emits : forall t w, out (emits t w) = out w ++ t.
Proof. reflexivity. Qed.

(** C1. On a running window render() activates every registered shader in
    turn and gives it the view matrix as "vMatrix" and the projection
    matrix as "pMatrix"; the shader registered as "LightShader" is then
    also given "cameraPosition", whose three components are the x, the y
    and again the y of the camera position. *)
Theorem render_broadcasts_camera : forall (e : frame_env) (w : World),
  running w = true ->
  exists w' before after,
    render e w = Ok tt w' /\
    out w' = out w ++ before ++
      flat_map (fun it : string * ptr =>
        [Call (snd it) use;
         Call (snd it) (SetUniformMatrix4fv mVmatrix "vMatrix");
         Call (snd it) (SetUniformMatrix4fv mPmatrix "pMatrix")] ++
        (if String.eqb (fst it) "LightShader"
         then [Call (mCamera (win w)) (Camera_GetPosition (fe_cameraPosition e));
               Call (mCamera (win w)) (Camera_GetPosition (fe_cameraPosition e));
               Call (mCamera (win w)) (Camera_GetPosition (fe_cameraPosition e));
               Call (snd it) (SetUniform3f (vx (fe_cameraPosition e))
                                           (vy (fe_cameraPosition e))
                                           (vy (fe_cameraPosition e))
                                           "cameraPosition")]
         else []))
        (mShaders (win w)) ++ after.
Proof.
  intros e w Hrun.
  exists (emits (frame_events e (win w)) (after_framerate 30 (fe_nsecsElapsed e) w)).
  exists (diagnostic_events 30 (fe_nsecsElapsed e) w ++ camera_events e (win w)).
  exists ((if ActivateRain (win w) then flat_map rain_events (mRainDrops (win w)) else [])
          ++ flat_map scene_events (mMap (win w))
          ++ [Call (mContext (win w)) swapBuffers]).
  split.
  - now apply render_every_running.
  - rewrite out_emits, out_after_framerate. unfold frame_events.
    rewrite <- !app_assoc. reflexivity.
Qed.

Lemma drawable_calls_diagnostic : forall period n w,
  drawable_calls (diagnostic_events period n w) = [].
Proof.
  intros period n w. unfold diagnostic_events.
  now destruct (negb (is_null (mMainWindow (win w))) && (period <? frameCount w + 1)).
Qed.

Lemma drawable_calls_render : forall period e w,
  drawable_calls (out (emits (frame_events e (win w))
                             (after_framerate period (fe_nsecsElapsed e) w))) =
  drawable_calls (out w) ++ drawable_calls (frame_events e (win w)).
Proof.
  intros period e w. rewrite out_emits, out_after_framerate.
  unfold drawable_calls. rewrite !filter_app.
  fold (drawable_calls (diagnostic_events period (fe_nsecsElapsed e) w)).
  now rewrite drawable_calls_diagnostic, app_nil_r.
Qed.

(** C2. From a freshly constructed window, init() registers "Surface" and
    then "Ball", and both the initialisation loop and the draw loop of a
    frame visit the two objects in that order. *)
Theorem scene_registry_visited_in_insertion_order :
  forall (hd : header_defaults) (mainWindow : ptr) (ie : init_env) (e : frame_env),
  ie_makeCurrent ie = true ->
  is_null (ie_logger ie) = false ->
  exists w1 w2 surface ball,
    (RenderWindow_ctor true ;; init ie) (process_start hd mainWindow) = Ok tt w1 /\
    mMap (win w1) = [("Surface"%string, surface); ("Ball"%string, ball)] /\
    drawable_calls (out w1) =
      [Call surface VisualObject_init; Call surface UpdateTransform;
       Call ball VisualObject_init; Call ball UpdateTransform] /\
    render e w1 = Ok tt w2 /\
    drawable_calls (out w2) =
      drawable_calls (out w1) ++
      [Call surface UpdateTransform; Call surface draw;
       Call ball UpdateTransform; Call ball draw].
Proof.
  intros [eye raining amount] mainWindow
         [lg mc vendor renderer version dc khr started] e Hmc Hlg.
  cbn in Hmc, Hlg. subst mc.
  destruct lg as [|lg|lg]; [discriminate| |];
    destruct raining, dc, khr, started;
    (eexists; eexists; eexists; eexists;
     split; [vm_compute; reflexivity|];
     split; [reflexivity|];
     split; [reflexivity|];
     split; [apply render_every_running; reflexivity|];
     rewrite drawable_calls_render; reflexivity).
Qed.

Lemma forallb_flat_map : forall A B (p : B -> bool) (f : A -> list B) (l : list A),
  (forall x, forallb p (f x) = true) -> forallb p (flat_map f l) = true.
Proof.
  intros A B p f l H. induction l as [|x l IH]; [reflexivity|].
  cbn [flat_map]. now rewrite forallb_app, H, IH.
Qed.

Lemma frame_events_no_logText : forall e s,
  forallb (fun ev => negb (is_logText ev)) (frame_events e s) = true.
Proof.
  intros e s. unfold frame_events. rewrite !forallb_app.
  repeat (apply andb_true_intro; split); try reflexivity.
  - apply forallb_flat_map. intros [name sh]. unfold broadcast_events.
    cbn [fst snd]. now destruct (String.eqb name "LightShader").
  - destruct (ActivateRain s); [|reflexivity].
    now apply forallb_flat_map.
  - now apply forallb_flat_map.
Qed.

Lemma diagnostic_events_no_logText : forall period n w,
  forallb (fun ev => negb (is_logText ev)) (diagnostic_events period n w) = true.
Proof.
  intros period n w. unfold diagnostic_events.
  now destruct (negb (is_null (mMainWindow (win w))) && (period <? frameCount w + 1)).
Qed.

(** C3 (what the code does instead).  On a running window, a frame whose
    makeCurrent fails is not abandoned: render() ignores the result, logs
    nothing, and still clears, draws every registered object and swaps the
    buffers. *)
Theorem render_ignores_makeCurrent_failure : forall (e : frame_env) (w : World),
  running w = true ->
  fe_makeCurrent e = false ->
  exists w' t,
    render e w = Ok tt w' /\
    out w' = out w ++ t /\
    In (Call (mContext (win w)) (makeCurrent false)) t /\
    forallb (fun ev => negb (is_logText ev)) t = true /\
    In (GL glClear_COLOR_DEPTH) t /\
    (forall it, In it (mMap (win w)) -> In (Call (snd it) draw) t) /\
    In (Call (mContext (win w)) swapBuffers) t.
Proof.
  intros e w Hrun Hfail.
  exists (emits (frame_events e (win w)) (after_framerate 30 (fe_nsecsElapsed e) w)).
  exists (diagnostic_events 30 (fe_nsecsElapsed e) w ++ frame_events e (win w)).
  split; [now apply render_every_running|].
  split; [now rewrite out_emits, out_after_framerate, app_assoc|].
  split.
  { apply in_or_app. right. unfold frame_events, camera_events.
    rewrite Hfail. cbn. auto. }
  split.
  { now rewrite forallb_app, diagnostic_events_no_logText, frame_events_no_logText. }
  split.
  { apply in_or_app. right. unfold frame_events, camera_events. cbn. auto 6. }
  split.
  { intros it Hin. apply in_or_app. right. unfold frame_events.
    apply in_or_app. right. apply in_or_app. right. apply in_or_app. right.
    apply in_or_app. left. apply in_flat_map. exists it. split; [assumption|].
    cbn. auto. }
  apply in_or_app. right. unfold frame_events.
  do 4 (apply in_or_app; right). now left.
Qed.

Lemma status_messages_app : forall t1 t2,
  status_messages (t1 ++ t2) = status_messages t1 ++ status_messages t2.
Proof. intros. apply filter_app. Qed.

Lemma frameCount_after_framerate : forall period n w,
  is_null (mMainWindow (win w)) = false ->
  frameCount (after_framerate period n w) =
  if period <? frameCount w + 1 then 0 else frameCount w + 1.
Proof.
  intros period n w H. unfold after_framerate. rewrite H.
  now destruct (period <? frameCount w + 1).
Qed.

Lemma messages_after_framerate : forall period n w,
  is_null (mMainWindow (win w)) = false ->
  List.length (status_messages (out (after_framerate period n w))) =
  (List.length (status_messages (out w)) +
   if (period <? frameCount w + 1)%Z then 1 else 0)%nat.
Proof.
  intros period n w H. rewrite out_after_framerate, status_messages_app, length_app.
  f_equal. unfold diagnostic_events. rewrite H. cbn [negb andb].
  now destruct (period <? frameCount w + 1).
Qed.

Lemma frames_counted : forall (ns : list Z) (w : World),
  is_null (mMainWindow (win w)) = false ->
  0 <= frameCount w <= 30 ->
  exists w',
    for_each ns calculateFramerate w = Ok tt w' /\
    win w' = win w /\
    frameCount w' = (frameCount w + Z.of_nat (List.length ns)) mod 31 /\
    Z.of_nat (List.length (status_messages (out w'))) =
      Z.of_nat (List.length (status_messages (out w)))
      + (frameCount w + Z.of_nat (List.length ns)) / 31.
Proof.
  induction ns as [|n ns IH]; intros w Hmw Hc.
  - exists w. cbn [for_each List.length Z.of_nat]. rewrite Z.add_0_r.
    rewrite Z.mod_small, Z.div_small by lia. repeat split; lia.
  - cbn [for_each]. unfold calculateFramerate at 1.
    rewrite (bind_ok _ _ _ _ _ _ _ (calculateFramerate_every_eq _ _ _)).
    set (w1 := after_framerate 30 n w).
    assert (Hwin : win w1 = win w) by apply win_after_framerate.
    pose proof (frameCount_after_framerate 30 n w Hmw) as Hfc.
    pose proof (messages_after_framerate 30 n w Hmw) as Hmsg.
    fold w1 in Hfc, Hmsg.
    destruct (IH w1) as (w' & Hrun & Hw & Hcount & Hmsgs).
    { now rewrite Hwin. }
    { rewrite Hfc. destruct (Z.ltb_spec 30 (frameCount w + 1)); lia. }
    exists w'. split; [exact Hrun|]. split; [congruence|].
    rewrite Hcount, Hmsgs, Hmsg, Hfc.
    replace (Z.of_nat (List.length (n :: ns))) with (Z.of_nat (List.length ns) + 1)
      by (cbn [List.length]; lia).
    destruct (Z.ltb_spec 30 (frameCount w + 1)) as [Hlt|Hge].
    + assert (frameCount w = 30) as -> by lia.
      replace (30 + (Z.of_nat (List.length ns) + 1))
        with (0 + Z.of_nat (List.length ns) + 1 * 31) by lia.
      rewrite Z.mod_add, Z.div_add by lia. split; lia.
    + replace (frameCount w + (Z.of_nat (List.length ns) + 1))
        with (frameCount w + 1 + Z.of_nat (List.length ns)) by lia.
      split; lia.
Qed.

(** C6 (what the code does instead).  With a main window and the counter
    at zero, [k] frames show the status message k / 31 times: none in the
    first 30 frames, the first one in frame 31, one every 31 frames. *)
Theorem status_message_every_31_frames : forall (ns : list Z) (w : World),
  is_null (mMainWindow (win w)) = false ->
  frameCount w = 0 ->
  exists w',
    for_each ns calculateFramerate w = Ok tt w' /\
    frameCount w' = Z.of_nat (List.length ns) mod 31 /\
    Z.of_nat (List.length (status_messages (out w'))) =
      Z.of_nat (List.length (status_messages (out w))) + Z.of_nat (List.length ns) / 31.
Proof.
  intros ns w Hmw Hc.
  destruct (frames_counted ns w Hmw) as (w' & Hrun & _ & Hcount & Hmsgs); [lia|].
  rewrite Hc in Hcount, Hmsgs. cbn [Z.add] in Hcount, Hmsgs.
  exists w'. auto.
Qed.

(** ** The rain toggle *)

Lemma c_rand_eq : forall w,
  c_rand w = Ok (fst (rand (rng w))) (set_rng (snd (rand (rng w))) w).
Proof. intro w. unfold c_rand. now destruct (rand (rng w)). Qed.

Lemma mShaders_index_eq : forall k w,
  mShaders_index k w =
  Ok (fst (Registry.index k (mShaders (win w))))
     (set_win (set_mShaders (snd (Registry.index k (mShaders (win w)))) (win w)) w).
Proof.
  intros k w. unfold mShaders_index, bind, getw, gets.
  now destruct (Registry.index k (mShaders (win w))).
Qed.

Ltac world_simpl :=
  unfold emits, set_win, set_frameCount, set_heap, set_rng, set_out;
  cbn [win frameCount heap rng out fst snd].

Lemma spawn_rain_eq : forall i w, spawn_rain i w = Ok tt (spawn_step i w).
Proof.
  intros i [s c h g o]. unfold spawn_rain, spawn_step, spawn_position.
  rewrite (bind_ok _ _ _ _ _ _ _ (c_rand_eq _)). world_simpl.
  rewrite (bind_ok _ _ _ _ _ _ _ (c_rand_eq _)). world_simpl.
  rewrite (bind_ok _ _ _ _ _ _ _ (mShaders_index_eq _ _)). world_simpl.
  do 5 (erewrite bind_ok by reflexivity; world_simpl).
  unfold emit, modify. world_simpl.
  rewrite <- !app_assoc. reflexivity.
Qed.

Lemma spawn_loop_eq : forall n i w,
  for_count n i spawn_rain w = Ok tt (spawn_loop n i w).
Proof.
  induction n as [|n IH]; intros i w; [reflexivity|].
  cbn [for_count spawn_loop].
  rewrite (bind_ok _ _ _ _ _ _ _ (spawn_rain_eq i w)). apply IH.
Qed.

Lemma find_app_new : forall k v m,
  Registry.find k m = None -> Registry.find k (m ++ [(k, v)]) = Some v.
Proof.
  intros k v m. induction m as [|[k' v'] m IH]; cbn.
  - now rewrite String.eqb_refl.
  - destruct (String.eqb k k'); [discriminate|exact IH].
Qed.

Lemma index_index : forall k m,
  Registry.index k (snd (Registry.index k m)) =
  (fst (Registry.index k m), snd (Registry.index k m)).
Proof.
  intros k m. unfold Registry.index.
  destruct (Registry.find k m) as [v|] eqn:E; cbn [fst snd].
  - now rewrite E.
  - now rewrite (find_app_new k nullptr m E).
Qed.

(** The rain loop: [n] balls at fresh consecutive addresses, appended in
    spawn order, two draws of rand() each. *)
Lemma spawn_loop_spec : forall (n k : nat) (w : World),
  let w' := spawn_loop n (Z.of_nat k) w in
  mRainAmount (win w') = mRainAmount (win w) /\
  mRainDrops (win w') = mRainDrops (win w) ++ map addr (seq (List.length (heap w)) n) /\
  rng w' = rng_after_rain n (rng w) /\
  frameCount w' = frameCount w /\
  out w' = out w ++
    flat_map (spawn_events (fst (Registry.index "PlainShader" (mShaders (win w)))))
      (combine (seq k n) (combine (seq (List.length (heap w)) n) (rain_positions n (rng w)))).
Proof.
  induction n as [|n IH]; intros k w; cbn zeta.
  - cbn [spawn_loop seq map rain_positions combine flat_map rng_after_rain].
    now rewrite !app_nil_r.
  - cbn [spawn_loop]. replace (Z.of_nat k + 1) with (Z.of_nat (S k)) by lia.
    destruct (IH (S k) (spawn_step (Z.of_nat k) w)) as (Ha & Hd & Hg & Hc & Ho).
    rewrite Ha, Hd, Hg, Hc, Ho. clear IH Ha Hd Hg Hc Ho.
    destruct w as [s c h g o]. unfold spawn_step. world_simpl.
    unfold set_mRainDrops, set_mShaders.
    cbn [mShaders mRainDrops mRainAmount].
    rewrite index_index. cbn [fst snd].
    rewrite length_app, Nat.add_1_r.
    cbn [seq map rain_positions combine flat_map rng_after_rain List.length].
    unfold spawn_events at 2. cbn [fst snd].
    rewrite <- !app_assoc. repeat split.
Qed.

Lemma keyPressEvent_Key_I : forall w, keyPressEvent Key_I w = toggle_rain w.
Proof. reflexivity. Qed.

Lemma toggle_rain_off : forall w,
  ActivateRain (win w) = true ->
  toggle_rain w =
  Ok tt (set_win (set_mRainDrops [] (set_ActivateRain false (win w))) w).
Proof.
  intros [s c h g o] H. unfold toggle_rain.
  erewrite bind_ok by reflexivity. cbn [win] in *. rewrite H.
  erewrite bind_ok by reflexivity. reflexivity.
Qed.

Lemma toggle_rain_on : forall w,
  ActivateRain (win w) = false ->
  toggle_rain w =
  Ok tt (set_win (set_ActivateRain true
                    (win (spawn_loop (Z.to_nat (mRainAmount (win w))) 0 w)))
                 (spawn_loop (Z.to_nat (mRainAmount (win w))) 0 w)).
Proof.
  intros [s c h g o] H. unfold toggle_rain.
  erewrite bind_ok by reflexivity. cbn [win] in *. rewrite H.
  erewrite bind_ok by reflexivity. cbn [win].
  rewrite (bind_ok _ _ _ _ _ _ _ (spawn_loop_eq _ _ _)). reflexivity.
Qed.

Lemma spawn_position_in_square : forall g, in_rain_square (fst (spawn_position g)).
Proof.
  intro g. unfold spawn_position, in_rain_square, rand_arguments. cbn zeta.
  pose proof (rand_range g) as H1.
  pose proof (rand_range (snd (rand g))) as H2.
  pose proof (Z.rem_bound_pos (fst (rand g)) 20) as B1.
  pose proof (Z.rem_bound_pos (fst (rand (snd (rand g)))) 20) as B2.
  destruct first_argument_first; cbn [fst snd];
    (eexists; eexists; split; [reflexivity|]; lia).
Qed.

Lemma rain_positions_in_square : forall n g, Forall in_rain_square (rain_positions n g).
Proof.
  induction n as [|n IH]; intro g; cbn [rain_positions]; constructor.
  - apply spawn_position_in_square.
  - apply IH.
Qed.

Lemma length_rain_positions : forall n g, List.length (rain_positions n g) = n.
Proof. induction n as [|n IH]; intro g; cbn; [reflexivity|now rewrite IH]. Qed.

(** C4 (amended).  The rain key on an active rain switches it off and
    empties mRainDrops.  On an inactive rain it creates mRainAmount balls at
    fresh addresses; each is initialised, placed, physics-enabled and
    appended in spawn order; each position has whole-numbered x and z in
    [-10, 9], taken from two successive rand() results, and height 5.
    Which of the two results goes to x and which to z follows the order in
    which the compiler evaluates the two arguments; the statement holds for
    either order.  Nothing makes the positions differ from one another. *)
Theorem rain_toggle_spawns_and_clears : forall w : World,
  exists w',
    keyPressEvent Key_I w = Ok tt w' /\
    if ActivateRain (win w)
    then ActivateRain (win w') = false /\
         mRainDrops (win w') = [] /\
         out w' = out w
    else let n := Z.to_nat (mRainAmount (win w)) in
         let balls := seq (List.length (heap w)) n in
         let positions := rain_positions n (rng w) in
         let plain := fst (Registry.index "PlainShader" (mShaders (win w))) in
         ActivateRain (win w') = true /\
         mRainDrops (win w') = mRainDrops (win w) ++ map addr balls /\
         List.length balls = n /\
         List.length positions = n /\
         Forall in_rain_square positions /\
         out w' = out w ++
           flat_map (fun iap : nat * (nat * QVector3D) =>
             [New (fst (snd iap)) (NewRollingBall "../VSIM_Oblig_3/ball.obj" plain);
              Call (addr (fst (snd iap))) VisualObject_init;
              Call (addr (fst (snd iap))) (SetPosition (snd (snd iap)));
              Call (addr (fst (snd iap))) EnablePhysics;
              qDebug (DebugSpawn (Z.of_nat (fst iap)) (snd (snd iap)))])
             (combine (seq 0 n) (combine balls positions)).
Proof.
  intro w. rewrite keyPressEvent_Key_I.
  destruct (ActivateRain (win w)) eqn:E.
  - rewrite toggle_rain_off by assumption. eexists. split; [reflexivity|].
    destruct w as [[] c h g o]. repeat split.
  - rewrite toggle_rain_on by assumption. eexists. split; [reflexivity|].
    cbn zeta.
    destruct (spawn_loop_spec (Z.to_nat (mRainAmount (win w))) 0 w)
      as (_ & Hd & _ & _ & Ho).
    change (Z.of_nat 0) with 0 in Hd, Ho.
    set (w1 := spawn_loop (Z.to_nat (mRainAmount (win w))) 0 w) in *.
    split; [now destruct w1 as [[] ? ? ? ?]|].
    split; [destruct w1 as [[] ? ? ? ?]; exact Hd|].
    split; [apply length_seq|].
    split; [apply length_rain_positions|].
    split; [apply rain_positions_in_square|].
    destruct w1 as [[] ? ? ? ?]; exact Ho.
Qed.

(** ** What a handler leaves alone *)

Lemma init_entries_app : forall t1 t2,
  init_entries (t1 ++ t2) = (init_entries t1 + init_entries t2)%nat.
Proof. intros. unfold init_entries. now rewrite filter_app, length_app. Qed.

Section Keeps.

Context {X : Type} (f : World -> X).

Lemma keeps_ret : forall A (a : A), keeps f (ret a).
Proof. intros A a w. reflexivity. Qed.

Lemma keeps_undefined : forall A, keeps f (@undefined _ A).
Proof. intros A w. exact I. Qed.

Lemma keeps_bind : forall A B (m : M A) (k : A -> M B),
  keeps f m -> (forall a, keeps f (k a)) -> keeps f (bind m k).
Proof.
  intros A B m k Hm Hk w. unfold bind. specialize (Hm w).
  destruct (m w) as [a w1|]; [|exact I].
  specialize (Hk a w1). destruct (k a w1) as [b w2|]; [|exact I].
  congruence.
Qed.

Lemma keeps_gets : forall A (g : World -> A), keeps f (gets g).
Proof. intros A g w. reflexivity. Qed.

Lemma keeps_getw : forall A (g : RenderWindow -> A), keeps f (getw g).
Proof. intros A g w. reflexivity. Qed.

Lemma keeps_modify : forall g : World -> World,
  (forall w, f (g w) = f w) -> keeps f (modify g).
Proof. intros g H w. apply H. Qed.

Lemma keeps_setw : forall h : RenderWindow -> RenderWindow,
  (forall w, f (set_win (h (win w)) w) = f w) -> keeps f (setw h).
Proof. intros h H w. apply H. Qed.

Lemma keeps_when : forall (b : bool) (m : M unit), keeps f m -> keeps f (when b m).
Proof. intros [|] m H; [exact H|apply keeps_ret]. Qed.

Lemma keeps_for_each : forall A (l : list A) (body : A -> M unit),
  (forall x, keeps f (body x)) -> keeps f (for_each l body).
Proof.
  intros A l body H. induction l as [|x l IH]; cbn [for_each].
  - apply keeps_ret.
  - apply keeps_bind; [apply H|intro; exact IH].
Qed.

Lemma keeps_emit : forall ev,
  (forall w, f (emits [ev] w) = f w) -> keeps f (emit ev).
Proof. intros ev H w. apply H. Qed.

Lemma keeps_gl_after_init : forall g,
  (forall w, f (emits [GL g] w) = f w) -> keeps f (gl_after_init g).
Proof.
  intros g H w. unfold gl_after_init, bind, getw, gets.
  destruct (mInitialized (win w)); [apply H|exact I].
Qed.

Lemma keeps_call : forall p m,
  (forall w, f (emits [Call p m] w) = f w) -> keeps f (call p m).
Proof.
  intros [|a|n] m H; [apply keeps_undefined|apply keeps_emit, H|apply keeps_emit, H].
Qed.

Lemma keeps_new : forall c,
  (forall a w, f (emits [New a c] (set_heap (heap w ++ [c]) w)) = f w) ->
  keeps f (new c).
Proof. intros c H w. apply H. Qed.

Lemma keeps_dynamic_cast : forall p, keeps f (dynamic_cast_RollingBall p).
Proof.
  intro p. unfold dynamic_cast_RollingBall.
  apply keeps_bind; [apply keeps_gets|intro; apply keeps_ret].
Qed.

Hypothesis f_mShaders : forall m w, f (set_win (set_mShaders m (win w)) w) = f w.
Hypothesis f_mMap : forall m w, f (set_win (set_mMap m (win w)) w) = f w.

Lemma keeps_mShaders_insert : forall k v, keeps f (mShaders_insert k v).
Proof. intros k v w. apply f_mShaders. Qed.

Lemma keeps_mMap_insert : forall k v, keeps f (mMap_insert k v).
Proof. intros k v w. apply f_mMap. Qed.

Lemma keeps_mShaders_index : forall k, keeps f (mShaders_index k).
Proof. intros k w. rewrite mShaders_index_eq. apply f_mShaders. Qed.

Lemma keeps_mMap_index : forall k, keeps f (mMap_index k).
Proof.
  intros k w. unfold mMap_index, bind, getw, gets.
  destruct (Registry.index k (mMap (win w))). apply f_mMap.
Qed.

End Keeps.

Ltac keeps_side :=
  intros;
  first [ reflexivity
        | unfold entries_view, emits, set_out, set_heap; cbn [out];
          rewrite init_entries_app; apply Nat.add_0_r ].

Ltac keeps_step :=
  lazymatch goal with
  | |- keeps _ (ret _) => apply keeps_ret
  | |- keeps _ undefined => apply keeps_undefined
  | |- keeps _ (bind _ _) => apply keeps_bind; [|intro]
  | |- keeps _ (getw _) => apply keeps_getw
  | |- keeps _ (gets _) => apply keeps_gets
  | |- keeps _ (emit _) => apply keeps_emit; keeps_side
  | |- keeps _ (gl_after_init _) => apply keeps_gl_after_init; keeps_side
  | |- keeps _ (call _ _) => apply keeps_call; keeps_side
  | |- keeps _ (new _) => apply keeps_new; keeps_side
  | |- keeps _ (setw _) => apply keeps_setw; keeps_side
  | |- keeps _ (modify _) => apply keeps_modify; keeps_side
  | |- keeps _ (dynamic_cast_RollingBall _) => apply keeps_dynamic_cast
  | |- keeps _ (mShaders_insert _ _) => apply keeps_mShaders_insert; keeps_side
  | |- keeps _ (mMap_insert _ _) => apply keeps_mMap_insert; keeps_side
  | |- keeps _ (mShaders_index _) => apply keeps_mShaders_index; keeps_side
  | |- keeps _ (mMap_index _) => apply keeps_mMap_index; keeps_side
  | |- keeps _ (when false _) => apply keeps_ret
  | |- keeps _ (when _ _) => apply keeps_when
  | |- keeps _ (for_each _ _) => apply keeps_for_each; intro
  | |- keeps _ (if ?b then _ else _) => destruct b
  end.

Ltac keeps_steps := repeat keeps_step.

Lemma init_keeps_rain : forall e, keeps rain_view (init e).
Proof. intro e. unfold init, startOpenGLDebugger, add_shader. keeps_steps. Qed.

Lemma render_keeps_rain : forall period e, keeps rain_view (render_every period e).
Proof.
  intros period e. unfold render_every, calculateFramerate_every, broadcast_camera.
  keeps_steps.
Qed.

Lemma exposeEvent_keeps_rain : forall e, keeps rain_view (exposeEvent e).
Proof.
  intro e. unfold exposeEvent.
  apply keeps_bind; [apply keeps_getw|intro initialized].
  apply keeps_bind; [apply keeps_when, init_keeps_rain|intro].
  keeps_steps.
Qed.

Lemma keyPressEvent_keeps_rain : forall key,
  key <> Key_I -> keeps rain_view (keyPressEvent key).
Proof.
  intros key Hkey. unfold keyPressEvent.
  apply Z.eqb_neq in Hkey. rewrite Hkey. keeps_steps.
Qed.

Lemma handle_keeps_rain : forall period c,
  is_toggle c = false -> keeps rain_view (handle_every period c).
Proof.
  intros period [e|e|key] H; cbn [handle_every].
  - apply exposeEvent_keeps_rain.
  - apply render_keeps_rain.
  - apply keyPressEvent_keeps_rain. cbn in H. now apply Z.eqb_neq.
Qed.

Lemma run_keeps_rain : forall period cs,
  forallb (fun c => negb (is_toggle c)) cs = true ->
  keeps rain_view (run_every period cs).
Proof.
  intros period cs. unfold run_every.
  induction cs as [|c cs IH]; intro H; cbn [for_each].
  - apply keeps_ret.
  - cbn [forallb] in H. apply andb_prop in H as [Hc Hcs].
    apply keeps_bind; [|intro; now apply IH].
    apply handle_keeps_rain. now apply negb_true_iff.
Qed.

Lemma keeps_Ok : forall A X (f : World -> X) (m : M A) w a w',
  keeps f m -> m w = Ok a w' -> f w' = f w.
Proof. intros A X f m w a w' H E. specialize (H w). now rewrite E in H. Qed.

Lemma rain_view_eq : forall w w',
  rain_view w' = rain_view w ->
  ActivateRain (win w') = ActivateRain (win w) /\
  mRainAmount (win w') = mRainAmount (win w) /\
  mRainDrops (win w') = mRainDrops (win w) /\
  rng w' = rng w.
Proof. intros w w' H. unfold rain_view in H. now inversion H. Qed.

(** C9. With a positive mRainAmount every handler keeps "the flag is set
    exactly when there are rain drops", none changes mRainAmount, and only
    the rain key changes the flag or the drops. *)
Theorem rain_flag_matches_drops : forall (c : invocation) (w w' : World),
  0 < mRainAmount (win w) ->
  handle c w = Ok tt w' ->
  mRainAmount (win w') = mRainAmount (win w) /\
  (rain_consistent w -> rain_consistent w') /\
  (is_toggle c = false ->
   ActivateRain (win w') = ActivateRain (win w) /\
   mRainDrops (win w') = mRainDrops (win w)).
Proof.
  intros c w w' Hpos Hrun. destruct (is_toggle c) eqn:Htog.
  - destruct c as [e|e|key]; try discriminate. cbn in Htog.
    apply Z.eqb_eq in Htog. subst key. cbn [handle handle_every] in Hrun.
    unfold handle in Hrun. cbn [handle_every] in Hrun.
    rewrite keyPressEvent_Key_I in Hrun.
    destruct (ActivateRain (win w)) eqn:E.
    + rewrite toggle_rain_off in Hrun by assumption.
      injection Hrun as <-. unfold rain_consistent.
      destruct w as [[] ? ? ? ?]. cbn in *.
      split; [reflexivity|]. split; [|discriminate].
      intros _. split; [discriminate|congruence].
    + rewrite toggle_rain_on in Hrun by assumption.
      injection Hrun as <-.
      destruct (spawn_loop_spec (Z.to_nat (mRainAmount (win w))) 0 w)
        as (Ha & Hd & _).
      change (Z.of_nat 0) with 0 in Ha, Hd.
      set (w1 := spawn_loop (Z.to_nat (mRainAmount (win w))) 0 w) in *.
      unfold rain_consistent.
      destruct w1 as [[] ? ? ? ?]. cbn in *.
      split; [exact Ha|]. split; [|discriminate].
      intros _. split; [|reflexivity]. intros _. rewrite Hd.
      destruct (Z.to_nat (mRainAmount (win w))) as [|n] eqn:En; [lia|].
      cbn [seq map]. now destruct (mRainDrops (win w)).
  - pose proof (keeps_Ok _ _ _ _ _ _ _ (handle_keeps_rain 30 c Htog) Hrun) as Hk.
    apply rain_view_eq in Hk as (Hf & Ha & Hd & _).
    split; [exact Ha|]. split; [|auto].
    unfold rain_consistent. now rewrite Hf, Hd.
Qed.

Lemma set_positions_app : forall t1 t2,
  set_positions (t1 ++ t2) = set_positions t1 ++ set_positions t2.
Proof.
  induction t1 as [|ev t1 IH]; intro t2; [reflexivity|].
  cbn [app set_positions]. destruct (is_SetPosition ev); [cbn; f_equal|]; apply IH.
Qed.

Lemma set_positions_spawn : forall plain (ps : list QVector3D) (ks ads : list nat),
  List.length ks = List.length ps ->
  List.length ads = List.length ps ->
  set_positions (flat_map (spawn_events plain) (combine ks (combine ads ps))) = ps.
Proof.
  intros plain. induction ps as [|p ps IH]; intros [|k ks] [|a ads] Hk Ha;
    try discriminate; try reflexivity.
  cbn [combine flat_map]. rewrite set_positions_app.
  cbn. f_equal. apply IH; cbn in Hk, Ha; congruence.
Qed.

(** The rain key on an inactive rain: the positions handed to the new
    balls depend on mRainAmount and the generator state alone. *)
Lemma toggle_positions : forall w w',
  ActivateRain (win w) = false ->
  keyPressEvent Key_I w = Ok tt w' ->
  exists t,
    out w' = out w ++ t /\
    set_positions t = rain_positions (Z.to_nat (mRainAmount (win w))) (rng w).
Proof.
  intros w w' Hoff Hrun. rewrite keyPressEvent_Key_I, toggle_rain_on in Hrun by assumption.
  injection Hrun as <-.
  destruct (spawn_loop_spec (Z.to_nat (mRainAmount (win w))) 0 w) as (_ & _ & _ & _ & Ho).
  change (Z.of_nat 0) with 0 in Ho.
  eexists. split; [exact Ho|].
  apply set_positions_spawn; now rewrite length_seq, length_rain_positions.
Qed.

(** C10. Two runs of the program (one compiled program: one order of
    evaluating the two rand() arguments) that start with the same
    generator state and the same mRainAmount, rain inactive, and handle
    any invocations other than the rain key first (nothing in them draws
    from or seeds the generator), spawn the same positions at their first
    press of the rain key; the positions have whole-numbered x and z in
    [-10, 9] and height 5.  The generator state of [process_start] is the
    unseeded [rand_start]. *)
Theorem rain_positions_deterministic :
  forall (pre1 pre2 : list invocation) (w1 w2 w1' w2' w1'' w2'' : World),
  forallb (fun c => negb (is_toggle c)) pre1 = true ->
  forallb (fun c => negb (is_toggle c)) pre2 = true ->
  rng w1 = rng w2 ->
  mRainAmount (win w1) = mRainAmount (win w2) ->
  ActivateRain (win w1) = false ->
  ActivateRain (win w2) = false ->
  run pre1 w1 = Ok tt w1' ->
  run pre2 w2 = Ok tt w2' ->
  keyPressEvent Key_I w1' = Ok tt w1'' ->
  keyPressEvent Key_I w2' = Ok tt w2'' ->
  exists t1 t2,
    out w1'' = out w1' ++ t1 /\
    out w2'' = out w2' ++ t2 /\
    set_positions t1 = set_positions t2 /\
    set_positions t1 = rain_positions (Z.to_nat (mRainAmount (win w1))) (rng w1) /\
    Forall in_rain_square (set_positions t1).
Proof.
  intros pre1 pre2 w1 w2 w1' w2' w1'' w2'' Hp1 Hp2 Hg Ha Hoff1 Hoff2 Hr1 Hr2 Hk1 Hk2.
  pose proof (keeps_Ok _ _ _ _ _ _ _ (run_keeps_rain 30 pre1 Hp1) Hr1) as V1.
  pose proof (keeps_Ok _ _ _ _ _ _ _ (run_keeps_rain 30 pre2 Hp2) Hr2) as V2.
  apply rain_view_eq in V1 as (Hf1 & Ha1 & _ & Hg1).
  apply rain_view_eq in V2 as (Hf2 & Ha2 & _ & Hg2).
  destruct (toggle_positions w1' w1'') as (t1 & Ho1 & Hs1); [congruence|assumption|].
  destruct (toggle_positions w2' w2'') as (t2 & Ho2 & Hs2); [congruence|assumption|].
  exists t1, t2. rewrite Hs1, Hs2, Ha1, Ha2, Hg1, Hg2, Ha, Hg.
  repeat split; try assumption. apply rain_positions_in_square.
Qed.

(** ** The diagnostic is an observer *)

Lemma rendered_app : forall t1 t2, rendered (t1 ++ t2) = rendered t1 ++ rendered t2.
Proof. intros. apply filter_app. Qed.

Lemma same_scene_refl : forall w, same_scene w w.
Proof. intro w. repeat split. Qed.

Lemma same_scene_emits : forall t w1 w2,
  same_scene w1 w2 -> same_scene (emits t w1) (emits t w2).
Proof.
  intros t w1 w2 (Hw & Hh & Hg & Ho). repeat split; try assumption.
  cbn [out emits set_out]. now rewrite !rendered_app, Ho.
Qed.

Lemma alike_ret : forall A (a : A), alike (ret a) (ret a).
Proof. intros A a w1 w2 H. now split. Qed.

Lemma alike_undefined : forall A, alike (@undefined _ A) undefined.
Proof. intros A w1 w2 H. exact I. Qed.

Lemma alike_bind : forall A B (m1 m2 : M A) (k1 k2 : A -> M B),
  alike m1 m2 -> (forall a, alike (k1 a) (k2 a)) -> alike (bind m1 k1) (bind m2 k2).
Proof.
  intros A B m1 m2 k1 k2 Hm Hk w1 w2 H. unfold bind.
  specialize (Hm w1 w2 H).
  destruct (m1 w1) as [a1 v1|], (m2 w2) as [a2 v2|]; try contradiction; [|exact I].
  destruct Hm as [<- Hv]. now apply Hk.
Qed.

Lemma alike_getw : forall A (g : RenderWindow -> A), alike (getw g) (getw g).
Proof.
  intros A g w1 w2 H. split; [|exact H].
  destruct H as (Hw & _). now rewrite Hw.
Qed.

Lemma alike_heap : alike (gets heap) (gets heap).
Proof. intros w1 w2 H. split; [|exact H]. now destruct H as (_ & Hh & _). Qed.

Lemma alike_setw : forall h : RenderWindow -> RenderWindow, alike (setw h) (setw h).
Proof.
  intros h w1 w2 (Hw & Hh & Hg & Ho). split; [reflexivity|].
  repeat split; try assumption. cbn. now rewrite Hw.
Qed.

Lemma alike_emit : forall ev, alike (emit ev) (emit ev).
Proof. intros ev w1 w2 H. split; [reflexivity|]. now apply same_scene_emits. Qed.

Lemma alike_call : forall p m, alike (call p m) (call p m).
Proof. intros [|a|n] m; [apply alike_undefined|apply alike_emit|apply alike_emit]. Qed.

Lemma alike_new : forall c, alike (new c) (new c).
Proof.
  intros c w1 w2 (Hw & Hh & Hg & Ho). unfold new. cbn [same_outcome].
  rewrite Hh. split; [reflexivity|].
  repeat split; cbn; try assumption; try congruence.
  now rewrite !rendered_app, Ho.
Qed.

Lemma alike_c_rand : alike c_rand c_rand.
Proof.
  intros w1 w2 (Hw & Hh & Hg & Ho). rewrite !c_rand_eq. cbn [same_outcome].
  rewrite Hg. split; [reflexivity|]. repeat split; assumption.
Qed.

Lemma alike_when : forall (b : bool) (m1 m2 : M unit),
  alike m1 m2 -> alike (when b m1) (when b m2).
Proof. intros [|] m1 m2 H; [exact H|apply alike_ret]. Qed.

Lemma alike_for_each : forall A (l : list A) (b1 b2 : A -> M unit),
  (forall x, alike (b1 x) (b2 x)) -> alike (for_each l b1) (for_each l b2).
Proof.
  intros A l b1 b2 H. induction l as [|x l IH]; cbn [for_each].
  - apply alike_ret.
  - apply alike_bind; [apply H|intro; exact IH].
Qed.

Lemma alike_for_count : forall n i (b1 b2 : Z -> M unit),
  (forall j, alike (b1 j) (b2 j)) -> alike (for_count n i b1) (for_count n i b2).
Proof.
  intros n. induction n as [|n IH]; intros i b1 b2 H; cbn [for_count].
  - apply alike_ret.
  - apply alike_bind; [apply H|intro; now apply IH].
Qed.

Lemma alike_let_index : forall (k : string) (m : Registry.t) (f1 f2 : ptr -> Registry.t -> M ptr),
  (forall v m', alike (f1 v m') (f2 v m')) ->
  alike (let (v, m') := Registry.index k m in f1 v m')
        (let (v, m') := Registry.index k m in f2 v m').
Proof. intros k m f1 f2 H. destruct (Registry.index k m). apply H. Qed.

Ltac alike_step :=
  lazymatch goal with
  | |- alike (ret _) (ret _) => apply alike_ret
  | |- alike undefined undefined => apply alike_undefined
  | |- alike (bind _ _) (bind _ _) => apply alike_bind; [|intro]
  | |- alike (getw _) (getw _) => apply alike_getw
  | |- alike (gets heap) (gets heap) => apply alike_heap
  | |- alike (setw _) (setw _) => apply alike_setw
  | |- alike (emit _) (emit _) => apply alike_emit
  | |- alike (call _ _) (call _ _) => apply alike_call
  | |- alike (new _) (new _) => apply alike_new
  | |- alike c_rand c_rand => apply alike_c_rand
  | |- alike (when _ _) (when _ _) => apply alike_when
  | |- alike (for_each _ _) (for_each _ _) => apply alike_for_each; intro
  | |- alike (for_count _ _ _) (for_count _ _ _) => apply alike_for_count; intro
  | |- alike (if ?b then _ else _) (if ?b then _ else _) => destruct b
  | |- alike (let (_, _) := Registry.index _ _ in _) _ =>
      apply alike_let_index; intros
  end.

Ltac alike_steps := repeat alike_step.

Lemma rendered_diagnostic : forall p n w,
  rendered (diagnostic_events p n w) = [mTimeStart_nsecsElapsed n].
Proof.
  intros p n w. unfold diagnostic_events.
  now destruct (negb (is_null (mMainWindow (win w))) && (p <? frameCount w + 1)).
Qed.

Lemma heap_rng_after_framerate : forall p n w,
  heap (after_framerate p n w) = heap w /\ rng (after_framerate p n w) = rng w.
Proof.
  intros p n w. unfold after_framerate.
  destruct (is_null (mMainWindow (win w))); [now split|].
  now destruct (p <? frameCount w + 1).
Qed.

Lemma same_scene_after_framerate : forall p1 p2 n w1 w2,
  same_scene w1 w2 -> same_scene (after_framerate p1 n w1) (after_framerate p2 n w2).
Proof.
  intros p1 p2 n w1 w2 (Hw & Hh & Hg & Ho).
  split; [now rewrite !win_after_framerate|].
  destruct (heap_rng_after_framerate p1 n w1) as [-> ->].
  destruct (heap_rng_after_framerate p2 n w2) as [-> ->].
  repeat split; try assumption.
  now rewrite !out_after_framerate, !rendered_app, !rendered_diagnostic, Ho.
Qed.

Lemma calculateFramerate_alike : forall p1 p2 n,
  alike (calculateFramerate_every p1 n) (calculateFramerate_every p2 n).
Proof.
  intros p1 p2 n w1 w2 H. rewrite !calculateFramerate_every_eq.
  split; [reflexivity|]. now apply same_scene_after_framerate.
Qed.

Lemma init_alike : forall e, alike (init e) (init e).
Proof.
  intro e.
  unfold init, startOpenGLDebugger, add_shader, mShaders_insert, mMap_insert,
    mShaders_index, mMap_index, dynamic_cast_RollingBall.
  alike_steps.
Qed.

Lemma exposeEvent_alike : forall e, alike (exposeEvent e) (exposeEvent e).
Proof.
  intro e. unfold exposeEvent, gl_after_init.
  apply alike_bind; [apply alike_getw|intro initialized].
  apply alike_bind; [apply alike_when, init_alike|intro].
  alike_steps.
Qed.

Lemma keyPressEvent_alike : forall key, alike (keyPressEvent key) (keyPressEvent key).
Proof.
  intro key. unfold keyPressEvent, toggle_rain, spawn_rain, mShaders_index.
  alike_steps.
Qed.

Lemma render_alike : forall p1 p2 e, alike (render_every p1 e) (render_every p2 e).
Proof.
  intros p1 p2 e. rewrite !render_every_split.
  apply alike_bind; [apply calculateFramerate_alike|intro].
  unfold render_rest, broadcast_camera, mMap_index. alike_steps.
Qed.

Lemma run_alike : forall p1 p2 cs, alike (run_every p1 cs) (run_every p2 cs).
Proof.
  intros p1 p2 cs. unfold run_every.
  induction cs as [|c cs IH]; cbn [for_each].
  - apply alike_ret.
  - apply alike_bind; [|intro; exact IH].
    destruct c as [e|e|key]; cbn [handle_every].
    + apply exposeEvent_alike.
    + apply render_alike.
    + apply keyPressEvent_alike.
Qed.

(** C7. calculateFramerate changes nothing but its counter and the status
    bar: the window (camera position, registries, rain flag, rain drops),
    the created objects and the generator are as before.  Run with any two
    sampling periods (1 and 1000, say) on the same invocations, the
    program is defined for both or for neither and ends with the same
    window and the same trace apart from status-bar messages. *)
Theorem framerate_sampling_is_an_observer :
  (forall (n : Z) (w : World),
     exists w',
       calculateFramerate n w = Ok tt w' /\
       win w' = win w /\ heap w' = heap w /\ rng w' = rng w /\
       rendered (out w') = rendered (out w) ++ [mTimeStart_nsecsElapsed n]) /\
  (forall (p1 p2 : Z) (cs : list invocation) (w : World),
     same_outcome (run_every p1 cs w) (run_every p2 cs w)).
Proof.
  split.
  - intros n w. exists (after_framerate 30 n w).
    split; [apply calculateFramerate_every_eq|].
    split; [apply win_after_framerate|].
    destruct (heap_rng_after_framerate 30 n w) as [-> ->].
    split; [reflexivity|]. split; [reflexivity|].
    now rewrite out_after_framerate, rendered_app, rendered_diagnostic.
  - intros p1 p2 cs w. apply run_alike, same_scene_refl.
Qed.

(** ** Initialisation on exposure *)

Lemma constructed_eq : forall hd mainWindow,
  RenderWindow_ctor true (process_start hd mainWindow) = Ok tt (constructed hd mainWindow).
Proof. reflexivity. Qed.

Lemma gl_after_init_ok : forall g w,
  mInitialized (win w) = true -> gl_after_init g w = Ok tt (emits [GL g] w).
Proof. intros g w H. unfold gl_after_init, bind, getw, gets. now rewrite H. Qed.

Lemma init_failing_keeps_flag : forall e,
  ie_makeCurrent e = false -> keeps initialized_view (init e).
Proof. intros e H. unfold init. rewrite H. cbn [negb]. keeps_steps. Qed.

(** A notification on a window that is not initialised, with makeCurrent
    failing: init() returns with the flag as it was, and glViewport is
    called with no OpenGL function resolved. *)
Lemma exposeEvent_unresolved : forall e w,
  mInitialized (win w) = false ->
  ie_makeCurrent (ee_init e) = false ->
  exposeEvent e w = Undefined.
Proof.
  intros e w Hi Hmc. unfold exposeEvent.
  erewrite bind_ok by reflexivity. rewrite Hi. cbn [negb when].
  unfold bind at 1.
  pose proof (init_failing_keeps_flag (ee_init e) Hmc w) as K.
  destruct (init (ee_init e) w) as [[] w1|]; [|reflexivity].
  unfold initialized_view in K.
  unfold gl_after_init, bind, getw, gets. now rewrite K, Hi.
Qed.

Lemma init_counts_one_entry : forall e w w',
  init e w = Ok tt w' -> entries_view w' = S (entries_view w).
Proof.
  intros e w w' H. unfold init in H.
  do 4 (erewrite bind_ok in H by reflexivity).
  match type of H with
  | ?rest ?w4 = _ =>
      assert (K : keeps entries_view rest)
        by (unfold startOpenGLDebugger, add_shader; keeps_steps);
      rewrite (keeps_Ok _ _ _ _ _ _ _ K H)
  end.
  unfold entries_view, emit, modify, setw, emits, set_out, set_win. cbn [out].
  rewrite !init_entries_app. cbn. lia.
Qed.

Lemma exposeEvent_counts_entry : forall e w w',
  mInitialized (win w) = false ->
  exposeEvent e w = Ok tt w' ->
  entries_view w' = S (entries_view w).
Proof.
  intros e w w' Hi H. unfold exposeEvent in H.
  erewrite bind_ok in H by reflexivity. rewrite Hi in H. cbn [negb when] in H.
  unfold bind at 1 in H. destruct (init (ee_init e) w) as [[] w1|] eqn:Ei; [|discriminate].
  rewrite <- (init_counts_one_entry _ _ _ Ei).
  match type of H with
  | ?rest ?w1 = _ =>
      assert (K : keeps entries_view rest) by keeps_steps;
      exact (keeps_Ok _ _ _ _ _ _ _ K H)
  end.
Qed.

Lemma exposeEvent_succeeding : forall hd mainWindow e,
  ie_makeCurrent (ee_init e) = true ->
  is_null (ie_logger (ee_init e)) = false ->
  exists w',
    exposeEvent e (constructed hd mainWindow) = Ok tt w' /\
    mInitialized (win w') = true /\
    is_null (mRenderTimer (win w')) = false /\
    init_entries (out w') = 1%nat.
Proof.
  intros hd mainWindow e Hmc Hlg.
  assert (exists w',
    exposeEvent e (constructed hd mainWindow) = Ok tt w' /\
    mInitialized (win w') = true /\
    is_null (mRenderTimer (win w')) = false) as (w' & Hrun & Hi & Ht).
  { destruct e as [[lg' mc vendor renderer version dc khr started] ratio wd ht exposed].
    cbn in Hmc, Hlg. subst mc.
    destruct lg' as [|a|n]; [discriminate| |]; destruct dc, khr, started, exposed;
      (eexists; split; [vm_compute; reflexivity|]; split; reflexivity). }
  exists w'. repeat split; try assumption.
  change (entries_view w' = S (entries_view (constructed hd mainWindow))).
  apply (exposeEvent_counts_entry e (constructed hd mainWindow) w'); [reflexivity|exact Hrun].
Qed.

Lemma exposeEvent_initialized : forall e w,
  mInitialized (win w) = true ->
  is_null (mRenderTimer (win w)) = false ->
  exposeEvent e w = Ok tt (emits (expose_events e (mRenderTimer (win w))) w).
Proof.
  intros e w Hi Ht. unfold exposeEvent, expose_events.
  erewrite bind_ok by reflexivity. rewrite Hi. cbn [negb when].
  erewrite bind_ok by reflexivity.
  rewrite (bind_ok _ _ _ _ _ _ _ (gl_after_init_ok _ _ Hi)).
  destruct (ee_isExposed e); cbn [when].
  - erewrite bind_ok by reflexivity.
    rewrite (bind_ok _ _ _ _ _ _ _ (call_ok _ _ _ Ht)).
    unfold emit, modify. now rewrite !emits_app.
  - reflexivity.
Qed.

Lemma exposeEvents_initialized : forall es w,
  mInitialized (win w) = true ->
  is_null (mRenderTimer (win w)) = false ->
  exists w',
    for_each es exposeEvent w = Ok tt w' /\
    mInitialized (win w') = true /\
    init_entries (out w') = init_entries (out w).
Proof.
  induction es as [|e es IH]; intros w Hi Ht.
  - exists w. now repeat split.
  - cbn [for_each].
    rewrite (bind_ok _ _ _ _ _ _ _ (exposeEvent_initialized e w Hi Ht)).
    destruct (IH (emits (expose_events e (mRenderTimer (win w))) w) Hi Ht)
      as (w' & Hrun & Hi' & Hn).
    exists w'. split; [exact Hrun|]. split; [exact Hi'|].
    rewrite Hn, out_emits, init_entries_app. unfold expose_events.
    destruct (ee_isExposed e); cbn; lia.
Qed.

(** C8.  On a constructed window the first exposed notification enters
    init(); when makeCurrent succeeds there (and the logger exists) it sets
    mInitialized, and whatever notifications follow, init() has been
    entered exactly once at the end.  When makeCurrent fails there, init()
    returns before initializeOpenGLFunctions() and the notification is
    undefined at glViewport: no notification follows that could enter
    init() a second time. *)
Theorem init_entered_once_at_first_notification :
  forall (hd : header_defaults) (mainWindow : ptr) (e : expose_env) (es : list expose_env),
  if ie_makeCurrent (ee_init e) && negb (is_null (ie_logger (ee_init e)))
  then exists w',
         (RenderWindow_ctor true ;; for_each (e :: es) exposeEvent)
           (process_start hd mainWindow) = Ok tt w' /\
         init_entries (out w') = 1%nat /\
         mInitialized (win w') = true
  else (RenderWindow_ctor true ;; for_each (e :: es) exposeEvent)
         (process_start hd mainWindow) = Undefined.
Proof.
  intros hd mainWindow e es.
  rewrite (bind_ok _ _ _ _ _ _ _ (constructed_eq hd mainWindow)). cbn [for_each].
  destruct (ie_makeCurrent (ee_init e)) eqn:Hmc; cbn [andb].
  - destruct (is_null (ie_logger (ee_init e))) eqn:Hlg; cbn [negb].
    + apply bind_undefined.
      destruct e as [[lg' mc vendor renderer version dc khr started] ratio wd ht exposed].
      cbn in Hmc, Hlg. subst mc. apply is_null_cases in Hlg. subst lg'. reflexivity.
    + destruct (exposeEvent_succeeding hd mainWindow e Hmc Hlg)
        as (w1 & Hrun & Hi & Ht & Hn).
      rewrite (bind_ok _ _ _ _ _ _ _ Hrun).
      destruct (exposeEvents_initialized es w1 Hi Ht) as (w' & Hrun' & Hi' & Hn').
      exists w'. split; [exact Hrun'|]. split; [congruence|exact Hi'].
  - apply bind_undefined. now apply exposeEvent_unresolved.
Qed.

(** ** Camera keys *)

Lemma is_movement_cases : forall key,
  is_movement key = true ->
  key = Key_W \/ key = Key_S \/ key = Key_A \/ key = Key_D \/ key = Key_Q \/ key = Key_E.
Proof.
  intros key H. unfold is_movement in H.
  repeat (apply orb_prop in H as [H|H]); apply Z.eqb_eq in H; auto 10.
Qed.

Lemma keyPressEvent_moves : forall key w,
  is_movement key = true ->
  keyPressEvent key w =
  Ok tt (set_win (set_CamPos (moved key (CamPos (win w))) (win w)) w).
Proof.
  intros key [[] c h g o] H.
  destruct (is_movement_cases key H) as [->|[->|[->|[->|[->| ->]]]]]; reflexivity.
Qed.

Lemma moved_whole : forall key x y z,
  is_movement key = true ->
  Z.abs x < exact_range -> Z.abs y < exact_range -> Z.abs z < exact_range ->
  moved key (vec3i x y z) = vec3i (x + step_x key) (y + step_y key) (z + step_z key).
Proof.
  intros key x y z H Hx Hy Hz. unfold exact_range in *.
  destruct (is_movement_cases key H) as [->|[->|[->|[->|[->| ->]]]]];
    unfold moved, step_x, step_y, step_z, vec3i, setX, setY, setZ;
    cbn [Z.eqb Key_W Key_S Key_A Key_D Key_Q Key_E Pos.eqb vx vy vz];
    rewrite ?Z.add_0_r;
    first [ rewrite add_one by lia | rewrite sub_one by lia ]; reflexivity.
Qed.

Lemma set_CamPos_twice : forall v v' w,
  set_win (set_CamPos v' (win (set_win (set_CamPos v (win w)) w)))
          (set_win (set_CamPos v (win w)) w)
  = set_win (set_CamPos v' (win w)) w.
Proof. now intros v v' [[] ? ? ? ?]. Qed.

Lemma set_CamPos_same : forall w, set_win (set_CamPos (CamPos (win w)) (win w)) w = w.
Proof. now intros [[] ? ? ? ?]. Qed.

Lemma step_bounds : forall key,
  -1 <= step_x key <= 1 /\ -1 <= step_y key <= 1 /\ -1 <= step_z key <= 1.
Proof.
  intro key. unfold step_x, step_y, step_z.
  destruct (key =? Key_D), (key =? Key_A), (key =? Key_E), (key =? Key_Q),
           (key =? Key_W), (key =? Key_S); lia.
Qed.

(** Camera keys from a whole-numbered position that cannot leave the
    exact range: the position is the start plus the unit steps. *)
Lemma camera_keys_add_up : forall keys x y z w,
  forallb is_movement keys = true ->
  CamPos (win w) = vec3i x y z ->
  Z.abs x + Z.of_nat (List.length keys) <= exact_range ->
  Z.abs y + Z.of_nat (List.length keys) <= exact_range ->
  Z.abs z + Z.of_nat (List.length keys) <= exact_range ->
  for_each keys keyPressEvent w =
  Ok tt (set_win (set_CamPos (vec3i (x + total step_x keys) (y + total step_y keys)
                                    (z + total step_z keys)) (win w)) w).
Proof.
  induction keys as [|key keys IH]; intros x y z w Hk Hpos Hx Hy Hz.
  - cbn [for_each total map fold_right]. rewrite !Z.add_0_r, <- Hpos.
    now rewrite set_CamPos_same.
  - cbn [forallb] in Hk. apply andb_prop in Hk as [Hkey Hkeys].
    cbn [List.length] in Hx, Hy, Hz.
    cbn [for_each]. rewrite (bind_ok _ _ _ _ _ _ _ (keyPressEvent_moves key w Hkey)).
    rewrite Hpos, moved_whole by (assumption || lia).
    destruct (step_bounds key) as (Bx & By & Bz).
    rewrite (IH (x + step_x key) (y + step_y key) (z + step_z key)); try assumption;
      try lia.
    + rewrite set_CamPos_twice. unfold total. cbn [map fold_right].
      now rewrite !Z.add_assoc.
    + now destruct w as [[] ? ? ? ?].
Qed.

Lemma total_Permutation : forall step keys keys',
  Permutation keys keys' -> total step keys = total step keys'.
Proof.
  intros step keys keys' H. unfold total.
  induction H; cbn [map fold_right]; lia.
Qed.

Lemma forallb_Permutation : forall (p : Z -> bool) keys keys',
  Permutation keys keys' -> forallb p keys = true -> forallb p keys' = true.
Proof.
  intros p keys keys' HP H. rewrite forallb_forall in *.
  intros k Hin. apply H. apply (Permutation_in k (Permutation_sym HP) Hin).
Qed.

(** C5 (amended).  From a whole-numbered camera position, camera keys that
    cannot take a coordinate beyond 2^24 in magnitude leave the position
    at the start plus the sum of the unit steps (W/S on z, D/A on x, E/Q
    on y), and every reordering of the keys ends in the same world. *)
Theorem camera_position_is_sum_of_steps :
  forall (keys keys' : list Z) (x y z : Z) (w : World),
  forallb is_movement keys = true ->
  Permutation keys keys' ->
  CamPos (win w) = vec3i x y z ->
  Z.abs x + Z.of_nat (List.length keys) <= exact_range ->
  Z.abs y + Z.of_nat (List.length keys) <= exact_range ->
  Z.abs z + Z.of_nat (List.length keys) <= exact_range ->
  exists w',
    for_each keys keyPressEvent w = Ok tt w' /\
    for_each keys' keyPressEvent w = Ok tt w' /\
    CamPos (win w') =
      vec3i (x + total step_x keys) (y + total step_y keys) (z + total step_z keys).
Proof.
  intros keys keys' x y z w Hk HP Hpos Hx Hy Hz.
  exists (set_win (set_CamPos (vec3i (x + total step_x keys) (y + total step_y keys)
                                     (z + total step_z keys)) (win w)) w).
  split; [apply camera_keys_add_up; assumption|]. split.
  - rewrite (camera_keys_add_up keys' x y z w).
    + now rewrite !(total_Permutation _ keys keys' HP).
    + now apply (forallb_Permutation _ keys).
    + assumption.
    + now rewrite <- (Permutation_length HP).
    + now rewrite <- (Permutation_length HP).
    + now rewrite <- (Permutation_length HP).
  - now destruct w as [[] ? ? ? ?].
Qed.

Lemma forallb_repeat : forall (p : Z -> bool) key n,
  p key = true -> forallb p (repeat key n) = true.
Proof. intros p key n H. induction n as [|n IH]; cbn; [reflexivity|now rewrite H]. Qed.

Lemma total_repeat : forall step key n,
  total step (repeat key n) = Z.of_nat n * step key.
Proof.
  intros step key n. unfold total.
  induction n as [|n IH]; [reflexivity|].
  cbn [repeat map fold_right]. rewrite IH. lia.
Qed.

(** ** When a frame is defined *)

Lemma for_each_checked :
  forall A (ok : A -> bool) (tr : A -> list event) (body : A -> M unit) (l : list A),
  (forall x w, body x w = if ok x then Ok tt (emits (tr x) w) else Undefined) ->
  forall w, for_each l body w =
            if forallb ok l then Ok tt (emits (flat_map tr l) w) else Undefined.
Proof.
  intros A ok tr body l Hb. induction l as [|x l IH]; intro w.
  - cbn. now rewrite emits_nil.
  - cbn [for_each forallb flat_map]. unfold bind at 1. rewrite Hb.
    destruct (ok x); cbn [andb]; [|reflexivity].
    rewrite IH. destruct (forallb ok l); [|reflexivity].
    now rewrite emits_app.
Qed.

Lemma ptrs_ok_map_snd : forall (l : list (string * ptr)),
  ptrs_ok (map snd l) = forallb (fun it => negb (is_null (snd it))) l.
Proof. intro l. unfold ptrs_ok. induction l as [|x l IH]; cbn; congruence. Qed.

Lemma broadcast_camera_cases : forall e cam it w,
  is_null cam = false ->
  broadcast_camera e cam it w =
  if negb (is_null (snd it))
  then Ok tt (emits (broadcast_events e cam it) w) else Undefined.
Proof.
  intros e cam it w Hc. destruct (is_null (snd it)) eqn:Hs; cbn [negb].
  - unfold broadcast_camera. apply bind_undefined, call_null, Hs.
  - now apply broadcast_camera_eq.
Qed.

Lemma rain_pass_cases : forall d w,
  (call d AddLife ;; call d UpdateTransform ;; call d draw) w =
  if negb (is_null d) then Ok tt (emits (rain_events d) w) else Undefined.
Proof.
  intros d w. destruct (is_null d) eqn:Hd; cbn [negb].
  - apply bind_undefined, call_null, Hd.
  - now apply rain_pass_eq.
Qed.

Lemma scene_pass_cases : forall (it : string * ptr) w,
  (call (snd it) UpdateTransform ;; call (snd it) draw) w =
  if negb (is_null (snd it)) then Ok tt (emits (scene_events it) w) else Undefined.
Proof.
  intros it w. destruct (is_null (snd it)) eqn:Hs; cbn [negb].
  - apply bind_undefined, call_null, Hs.
  - now apply scene_pass_eq.
Qed.

Lemma mMap_index_missing : forall k w,
  Registry.find k (mMap (win w)) = None ->
  mMap_index k w =
  Ok nullptr (set_win (set_mMap (mMap (win w) ++ [(k, nullptr)]) (win w)) w).
Proof.
  intros k w H. unfold mMap_index, bind, getw, gets, Registry.index.
  now rewrite H.
Qed.

Lemma render_rest_cases : forall e w,
  render_rest e w =
  if drawable w then Ok tt (emits (frame_events e (win w)) w) else Undefined.
Proof.
  intros e w. unfold render_rest, drawable.
  erewrite bind_ok by reflexivity.
  erewrite bind_ok by reflexivity. cbn [win emits set_out].
  destruct (is_null (mContext (win w))) eqn:Hctx; cbn [negb andb].
  { apply bind_undefined, call_null, Hctx. }
  call_step Hctx.
  do 2 (erewrite bind_ok by reflexivity).
  erewrite bind_ok by reflexivity. cbn [win emits set_out].
  destruct (is_null (mCamera (win w))) eqn:Hcam; cbn [negb andb].
  { apply bind_undefined, call_null, Hcam. }
  do 2 call_step Hcam.
  erewrite bind_ok by reflexivity.
  destruct (Registry.find "Ball" (mMap (win w))) as [ball|] eqn:Hball.
  2:{ erewrite bind_ok by (apply mMap_index_missing; exact Hball).
      reflexivity. }
  erewrite bind_ok by (apply mMap_index_found; exact Hball).
  destruct (is_null ball) eqn:Hb; cbn [negb andb].
  { apply bind_undefined, call_null, Hb. }
  call_step Hb. call_step Hcam.
  erewrite bind_ok by reflexivity. cbn [win emits set_out].
  unfold bind at 1.
  rewrite (for_each_checked _ (fun it => negb (is_null (snd it)))
             (broadcast_events e (mCamera (win w))))
    by (intros; now apply broadcast_camera_cases).
  rewrite ptrs_ok_map_snd.
  destruct (forallb (fun it => negb (is_null (snd it))) (mShaders (win w)));
    cbn [andb]; [|reflexivity].
  erewrite bind_ok by reflexivity. cbn [win emits set_out].
  unfold bind at 1.
  assert (Hrain :
    forall w0, mRainDrops (win w0) = mRainDrops (win w) ->
    when (ActivateRain (win w))
      (drops <- getw mRainDrops ;;
       for_each drops (fun d => call d AddLife ;; call d UpdateTransform ;; call d draw)) w0
    = if negb (ActivateRain (win w)) || ptrs_ok (mRainDrops (win w))
      then Ok tt (emits (if ActivateRain (win w)
                         then flat_map rain_events (mRainDrops (win w)) else []) w0)
      else Undefined).
  { intros w0 Hw0. destruct (ActivateRain (win w)); cbn [when negb orb].
    - erewrite bind_ok by reflexivity. rewrite Hw0.
      apply (for_each_checked _ (fun d => negb (is_null d)) rain_events).
      intros; apply rain_pass_cases.
    - unfold ret. now rewrite emits_nil. }
  rewrite Hrain by reflexivity. clear Hrain.
  destruct (negb (ActivateRain (win w)) || ptrs_ok (mRainDrops (win w)));
    cbn [andb]; [|reflexivity].
  erewrite bind_ok by reflexivity. cbn [win emits set_out].
  unfold bind at 1.
  rewrite (for_each_checked _ (fun it => negb (is_null (snd it))) scene_events)
    by (intros; apply scene_pass_cases).
  rewrite ptrs_ok_map_snd.
  destruct (forallb (fun it => negb (is_null (snd it))) (mMap (win w)));
    [|reflexivity].
  rewrite call_ok by assumption.
  rewrite !emits_app. unfold frame_events, camera_events, Registry.index.
  rewrite Hball. reflexivity.
Qed.

Lemma drawable_same_win : forall w w', win w' = win w -> drawable w' = drawable w.
Proof. intros w w' H. unfold drawable. now rewrite H. Qed.

(** X1. render() is defined exactly on the drawable windows, and there it
    changes nothing but the frame counter and the trace, to which it adds
    the diagnostic and the calls of the frame. *)
Theorem render_defined_iff_drawable : forall (e : frame_env) (w : World),
  render e w =
  if drawable w
  then Ok tt (emits (frame_events e (win w)) (after_framerate 30 (fe_nsecsElapsed e) w))
  else Undefined.
Proof.
  intros e w. unfold render. rewrite render_every_split.
  rewrite (bind_ok _ _ _ _ _ _ _ (calculateFramerate_every_eq _ _ _)).
  rewrite render_rest_cases.
  rewrite (drawable_same_win w) by apply win_after_framerate.
  now rewrite win_after_framerate.
Qed.

(** ** Once initialised, no handler meets a null pointer *)

Lemma keyPressEvent_Escape : forall w,
  keyPressEvent Key_Escape w =
  if is_null (mMainWindow (win w)) then Undefined
  else Ok tt (emits [Call (mMainWindow (win w)) close] w).
Proof.
  intros [[ctx ini mw tm lg dbg sh cam mp bl cp ar ra dr] c h g o].
  destruct mw; reflexivity.
Qed.

Lemma is_movement_false : forall key,
  is_movement key = false ->
  (key =? Key_W) = false /\ (key =? Key_S) = false /\ (key =? Key_A) = false /\
  (key =? Key_D) = false /\ (key =? Key_Q) = false /\ (key =? Key_E) = false.
Proof.
  intros key H. unfold is_movement in H.
  repeat (apply orb_false_elim in H as [H ?]). auto 10.
Qed.

Lemma keyPressEvent_other : forall key w,
  key <> Key_Escape -> is_movement key = false -> key <> Key_I ->
  keyPressEvent key w = Ok tt w.
Proof.
  intros key w He Hm Hi. unfold keyPressEvent.
  apply Z.eqb_neq in He, Hi.
  destruct (is_movement_false key Hm) as (HW & HS & HA & HD & HQ & HE).
  rewrite He, Hi, HW, HS, HA, HD, HQ, HE. now destruct w.
Qed.

Lemma ready_inv : forall w,
  ready w = true <->
  (running w = true /\ mInitialized (win w) = true /\
   is_null (mRenderTimer (win w)) = false /\ is_null (mMainWindow (win w)) = false /\
   exists plain, Registry.find "PlainShader" (mShaders (win w)) = Some plain).
Proof.
  intro w. unfold ready. rewrite !andb_true_iff, !negb_true_iff.
  destruct (Registry.find "PlainShader" (mShaders (win w))) as [plain|].
  - split; [intros ((((? & ?) & ?) & ?) & _); eauto 10|tauto].
  - split; [intros (_ & H); discriminate|intros (_ & _ & _ & _ & p & H); discriminate].
Qed.

Lemma running_iff : forall w,
  running w = true <->
  (is_null (mContext (win w)) = false /\ is_null (mCamera (win w)) = false /\
   ptrs_ok (map snd (mShaders (win w))) = true /\
   ptrs_ok (map snd (mMap (win w))) = true /\
   ptrs_ok (mRainDrops (win w)) = true /\
   exists ball, Registry.find "Ball" (mMap (win w)) = Some ball).
Proof.
  intro w. unfold running. rewrite !andb_true_iff, !negb_true_iff.
  destruct (Registry.find "Ball" (mMap (win w))) as [ball|].
  - split; [intros (((((? & ?) & ?) & ?) & ?) & _); eauto 10|tauto].
  - split; [intros (_ & H); discriminate
           |intros (_ & _ & _ & _ & _ & b & H); discriminate].
Qed.

Lemma ready_same_win : forall w w', win w' = win w -> ready w' = ready w.
Proof. intros w w' H. unfold ready, running. now rewrite H. Qed.

Lemma ready_set_CamPos : forall v w,
  ready (set_win (set_CamPos v (win w)) w) = ready w.
Proof. now intros v [[] ? ? ? ?]. Qed.

Lemma ready_set_ActivateRain : forall b w,
  ready (set_win (set_ActivateRain b (win w)) w) = ready w.
Proof. now intros b [[] ? ? ? ?]. Qed.

Lemma ready_clear_rain : forall w,
  ready w = true ->
  ready (set_win (set_mRainDrops [] (set_ActivateRain false (win w))) w) = true.
Proof.
  intros w H. apply ready_inv in H as (Hr & Hi & Ht & Hm & Hp).
  apply running_iff in Hr as (Hc & Hcam & Hs & Hmap & _ & Hb).
  apply ready_inv. destruct w as [[] ? ? ? ?]. cbn in *.
  repeat split; try assumption. apply running_iff. cbn.
  repeat split; assumption.
Qed.

Lemma index_found : forall k v m,
  Registry.find k m = Some v -> Registry.index k m = (v, m).
Proof. intros k v m H. unfold Registry.index. now rewrite H. Qed.

Lemma ptrs_ok_snoc : forall l a, ptrs_ok l = true -> ptrs_ok (l ++ [addr a]) = true.
Proof. intros l a H. unfold ptrs_ok in *. now rewrite forallb_app, H. Qed.

Lemma ready_spawn_step : forall i w, ready w = true -> ready (spawn_step i w) = true.
Proof.
  intros i w H. apply ready_inv in H as (Hr & Hi & Ht & Hm & plain & Hp).
  apply running_iff in Hr as (Hc & Hcam & Hs & Hmap & Hd & Hb).
  apply ready_inv. unfold spawn_step. rewrite (index_found _ _ _ Hp).
  destruct w as [[] ? ? ? ?]. cbn in *.
  repeat split; try assumption; [|now exists plain].
  apply running_iff. cbn. repeat split; try assumption.
  now apply ptrs_ok_snoc.
Qed.

Lemma ready_spawn_loop : forall n i w, ready w = true -> ready (spawn_loop n i w) = true.
Proof.
  induction n as [|n IH]; intros i w H; cbn [spawn_loop]; [exact H|].
  now apply IH, ready_spawn_step.
Qed.

Lemma ready_running : forall w, ready w = true -> running w = true.
Proof. intros w H. now apply ready_inv in H. Qed.

Lemma handle_ready : forall (c : invocation) (w : World),
  ready w = true ->
  exists w', handle c w = Ok tt w' /\ ready w' = true.
Proof.
  intros c w H. pose proof H as H0.
  apply ready_inv in H0 as (Hr & Hi & Ht & Hm & _).
  destruct c as [e|e|key]; unfold handle; cbn [handle_every].
  - rewrite exposeEvent_initialized by assumption.
    eexists. split; [reflexivity|]. now rewrite (ready_same_win w).
  - rewrite render_every_running by assumption.
    eexists. split; [reflexivity|].
    rewrite (ready_same_win w); [assumption|]. cbn [win emits set_out].
    apply win_after_framerate.
  - destruct (Z.eq_dec key Key_Escape) as [->|Hesc].
    { rewrite keyPressEvent_Escape, Hm.
      eexists. split; [reflexivity|]. now rewrite (ready_same_win w). }
    destruct (is_movement key) eqn:Hmove.
    { rewrite keyPressEvent_moves by assumption.
      eexists. split; [reflexivity|]. now rewrite ready_set_CamPos. }
    destruct (Z.eq_dec key Key_I) as [->|Hrain].
    { rewrite keyPressEvent_Key_I.
      destruct (ActivateRain (win w)) eqn:E.
      - rewrite toggle_rain_off by assumption.
        eexists. split; [reflexivity|]. now apply ready_clear_rain.
      - rewrite toggle_rain_on by assumption.
        eexists. split; [reflexivity|].
        rewrite ready_set_ActivateRain. now apply ready_spawn_loop. }
    rewrite keyPressEvent_other by assumption.
    now exists w.
Qed.

(** X2. From a ready window every sequence of handler invocations is
    defined, whatever the handlers are told, and ends in a ready window:
    once initialised, no exposeEvent, render or keyPressEvent calls
    through a null pointer. *)
Theorem ready_is_kept : forall (cs : list invocation) (w : World),
  ready w = true ->
  exists w', run cs w = Ok tt w' /\ ready w' = true.
Proof.
  unfold run, run_every. induction cs as [|c cs IH]; intros w H.
  - now exists w.
  - destruct (handle_ready c w H) as (w1 & H1 & R1).
    destruct (IH w1 R1) as (w' & H' & R').
    exists w'. split; [|exact R'].
    cbn [for_each]. unfold handle in H1.
    now rewrite (bind_ok _ _ _ _ _ _ _ H1).
Qed.

Lemma exposeEvent_succeeding_ready : forall hd mainWindow e,
  is_null mainWindow = false ->
  ie_makeCurrent (ee_init e) = true ->
  is_null (ie_logger (ee_init e)) = false ->
  exists w',
    exposeEvent e (constructed hd mainWindow) = Ok tt w' /\ ready w' = true.
Proof.
  intros [eye raining amount] mainWindow
         [[lg' mc vendor renderer version dc khr started] ratio wd ht exposed]
         Hmw Hmc Hlg.
  cbn in Hmc, Hlg. subst mc.
  destruct mainWindow as [|mw|mw]; [discriminate| |];
    (destruct lg' as [|a|n]; [discriminate| |]); destruct dc, khr, started, exposed;
      (eexists; split; [vm_compute; reflexivity|reflexivity]).
Qed.

Lemma exposeEvents_ready : forall es w,
  ready w = true ->
  exists w', for_each es exposeEvent w = Ok tt w' /\ ready w' = true.
Proof.
  induction es as [|e es IH]; intros w H.
  - now exists w.
  - destruct (handle_ready (ExposeEvent e) w H) as (w1 & H1 & R1).
    destruct (IH w1 R1) as (w' & H' & R').
    exists w'. split; [|exact R'].
    cbn [for_each]. unfold handle in H1. cbn [handle_every] in H1.
    now rewrite (bind_ok _ _ _ _ _ _ _ H1).
Qed.

(** X3. A window constructed with a context and a main window is ready
    after its first exposed notification when makeCurrent succeeds there,
    and stays ready through every later notification, whatever makeCurrent
    and the logger are then. *)
Theorem first_notification_makes_ready :
  forall (hd : header_defaults) (mainWindow : ptr) (e : expose_env) (es : list expose_env),
  is_null mainWindow = false ->
  ie_makeCurrent (ee_init e) = true ->
  is_null (ie_logger (ee_init e)) = false ->
  exists w',
    (RenderWindow_ctor true ;; for_each (e :: es) exposeEvent) (process_start hd mainWindow)
      = Ok tt w' /\
    ready w' = true.
Proof.
  intros hd mainWindow e es Hmw Hmc Hlg.
  rewrite (bind_ok _ _ _ _ _ _ _ (constructed_eq hd mainWindow)). cbn [for_each].
  destruct (exposeEvent_succeeding_ready hd mainWindow e Hmw Hmc Hlg) as (w1 & H1 & R1).
  rewrite (bind_ok _ _ _ _ _ _ _ H1). now apply exposeEvents_ready.
Qed.

(** ** What key presses and notifications leave alone *)

Lemma keeps_c_rand : forall X (f : World -> X),
  (forall g w, f (set_rng g w) = f w) -> keeps f c_rand.
Proof. intros X f H w. rewrite c_rand_eq. apply H. Qed.

Lemma keeps_for_count : forall X (f : World -> X) n i (body : Z -> M unit),
  (forall j, keeps f (body j)) -> keeps f (for_count n i body).
Proof.
  intros X f n. induction n as [|n IH]; intros i body H; cbn [for_count].
  - apply keeps_ret.
  - apply keeps_bind; [apply H|intro; now apply IH].
Qed.

Ltac keeps_more :=
  repeat first
    [ keeps_step
    | lazymatch goal with
      | |- keeps _ c_rand => apply keeps_c_rand; keeps_side
      | |- keeps _ (for_count _ _ _) => apply keeps_for_count; intro
      end ].

Lemma keyPressEvent_keeps_beyond : forall key, keeps beyond_keys (keyPressEvent key).
Proof. intro key. unfold keyPressEvent, toggle_rain, spawn_rain. keeps_more. Qed.

Lemma exposeEvent_keeps_frameCount : forall e, keeps frameCount (exposeEvent e).
Proof.
  intro e. unfold exposeEvent, init, startOpenGLDebugger, add_shader. keeps_more.
Qed.

Lemma render_rest_keeps_frameCount : forall e, keeps frameCount (render_rest e).
Proof. intro e. unfold render_rest, broadcast_camera. keeps_more. Qed.

Lemma handle_frameCount : forall c w w',
  0 <= frameCount w <= 30 -> handle c w = Ok tt w' -> 0 <= frameCount w' <= 30.
Proof.
  intros [e|e|key] w w' Hc H; unfold handle in H; cbn [handle_every] in H.
  - now rewrite (keeps_Ok _ _ _ _ _ _ _ (exposeEvent_keeps_frameCount e) H).
  - rewrite render_every_split in H.
    rewrite (bind_ok _ _ _ _ _ _ _ (calculateFramerate_every_eq _ _ _)) in H.
    rewrite (keeps_Ok _ _ _ _ _ _ _ (render_rest_keeps_frameCount e) H).
    unfold after_framerate.
    destruct (is_null (mMainWindow (win w))); [exact Hc|].
    destruct (Z.ltb_spec 30 (frameCount w + 1)); cbn; lia.
  - pose proof (keeps_Ok _ _ _ _ _ _ _ (keyPressEvent_keeps_beyond key) H) as K.
    unfold beyond_keys in K. inversion K. lia.
Qed.

(** X4. The static frame counter of calculateFramerate stays between 0
    and 30 through every sequence of handler invocations, so it cannot
    overflow. *)
Theorem frameCount_stays_in_range : forall (cs : list invocation) (w w' : World),
  0 <= frameCount w <= 30 ->
  run cs w = Ok tt w' ->
  0 <= frameCount w' <= 30.
Proof.
  unfold run, run_every. induction cs as [|c cs IH]; intros w w' Hc H.
  - cbn in H. injection H as <-. exact Hc.
  - cbn [for_each] in H. unfold bind in H.
    destruct (handle_every 30 c w) as [[] w1|] eqn:E; [|discriminate].
    apply (IH w1 w'); [|exact H].
    now apply (handle_frameCount c w w1).
Qed.

(** X5. A key press, whatever the key, never writes the context, the
    initialised flag, the main window, timer, logger and debug logger
    pointers, the camera, the scene registry, mBall, mRainAmount or the
    frame counter. *)
Theorem keyPressEvent_leaves_scene : forall (key : Z) (w w' : World),
  keyPressEvent key w = Ok tt w' ->
  mContext (win w') = mContext (win w) /\
  mInitialized (win w') = mInitialized (win w) /\
  mMainWindow (win w') = mMainWindow (win w) /\
  mRenderTimer (win w') = mRenderTimer (win w) /\
  mLogger (win w') = mLogger (win w) /\
  mOpenGLDebugLogger (win w') = mOpenGLDebugLogger (win w) /\
  mCamera (win w') = mCamera (win w) /\
  mMap (win w') = mMap (win w) /\
  mBall (win w') = mBall (win w) /\
  mRainAmount (win w') = mRainAmount (win w) /\
  frameCount w' = frameCount w.
Proof.
  intros key w w' H.
  pose proof (keeps_Ok _ _ _ _ _ _ _ (keyPressEvent_keeps_beyond key) H) as K.
  unfold beyond_keys in K. inversion K. repeat split; assumption.
Qed.

(** X6. A key that is neither a camera key nor the rain key changes
    nothing; Escape alone also calls close() on the main window, and is
    undefined when there is no main window. *)
Theorem keys_without_effect : forall (key : Z) (w : World),
  is_movement key = false ->
  key <> Key_I ->
  keyPressEvent key w =
  if key =? Key_Escape
  then if is_null (mMainWindow (win w)) then Undefined
       else Ok tt (emits [Call (mMainWindow (win w)) close] w)
  else Ok tt w.
Proof.
  intros key w Hm Hi. destruct (Z.eqb_spec key Key_Escape) as [->|He].
  - apply keyPressEvent_Escape.
  - now apply keyPressEvent_other.
Qed.

(** ** Before a context is current *)

(** X7. When the context cannot be created the constructor only reports
    it: mContext stays null, and the first exposed notification and every
    frame call through the null pointer. *)
Theorem failed_context_creation_is_fatal_later :
  forall (hd : header_defaults) (mainWindow : ptr),
  exists w,
    RenderWindow_ctor false (process_start hd mainWindow) = Ok tt w /\
    mContext (win w) = nullptr /\
    In (qDebug (DebugText "Context could not be made - quitting this application")) (out w) /\
    (forall e, exposeEvent e w = Undefined) /\
    (forall e, render e w = Undefined).
Proof.
  intros hd mainWindow. eexists. split; [reflexivity|].
  split; [reflexivity|]. split; [cbn; auto 10|].
  split; [reflexivity|].
  intro e. destruct mainWindow; reflexivity.
Qed.

(** X8. When makeCurrent fails, init() on a constructed window logs the
    failure and returns with mInitialized still false and without having
    called initializeOpenGLFunctions(); a notification on a window that is
    not initialised is then undefined, because exposeEvent goes on to
    glViewport (and never comes to start the timer). *)
Theorem failed_makeCurrent_is_fatal :
  forall (hd : header_defaults) (mainWindow : ptr) (e : expose_env),
  ie_makeCurrent (ee_init e) = false ->
  is_null (ie_logger (ee_init e)) = false ->
  (exists w1,
     init (ee_init e) (constructed hd mainWindow) = Ok tt w1 /\
     mInitialized (win w1) = false /\
     In (Call (ie_logger (ee_init e)) (logText "makeCurrent() failed" (Some REALERROR)))
        (out w1) /\
     ~ In (GL initializeOpenGLFunctions) (out w1)) /\
  (forall w, mInitialized (win w) = false -> exposeEvent e w = Undefined).
Proof.
  intros hd mainWindow e Hmc Hlg. split.
  - destruct e as [[lg' mc vendor renderer version dc khr started] ratio wd ht exposed].
    cbn in Hmc, Hlg. subst mc.
    destruct lg' as [|a|n]; [discriminate| |];
      (eexists; split; [vm_compute; reflexivity|]; split; [reflexivity|];
       split; [cbn; auto 10|]; cbn; intuition discriminate).
  - intros w Hi. now apply exposeEvent_unresolved.
Qed.

(** ** checkForGLerrors *)

Lemma describe_error_eq : forall lg err w,
  is_null lg = false ->
  describe_error lg err w =
  Ok tt (emits (if (err =? 1280)%N then [Call lg (logText GL_INVALID_ENUM_text None)]
                else if (err =? 1281)%N then [Call lg (logText GL_INVALID_VALUE_text None)]
                else if (err =? 1282)%N
                     then [Call lg (logText GL_INVALID_OPERATION_text None)]
                     else []) w).
Proof.
  intros lg err w Hlg. unfold describe_error.
  destruct (err =? 1280)%N; [now apply call_ok|].
  destruct (err =? 1281)%N; [now apply call_ok|].
  destruct (err =? 1282)%N; [now apply call_ok|].
  unfold ret. now rewrite emits_nil.
Qed.

Lemma poll_glGetError_eq : forall lg errs w,
  is_null lg = false ->
  poll_glGetError lg errs w =
  Ok tt (emits (flat_map (error_events lg) (pending_errors errs)) w).
Proof.
  intros lg errs w Hlg. revert w.
  induction errs as [|err rest IH]; intro w; cbn [poll_glGetError pending_errors].
  - cbn. unfold ret. now rewrite emits_nil.
  - destruct (err =? 0)%N.
    + cbn. unfold ret. now rewrite emits_nil.
    + call_step Hlg.
      rewrite (bind_ok _ _ _ _ _ _ _ (describe_error_eq lg err _ Hlg)).
      rewrite IH, !emits_app. cbn [flat_map]. unfold error_events at 2.
      rewrite <- ?app_assoc. reflexivity.
Qed.

Lemma log_messages_eq : forall lg msgs w,
  is_null lg = false ->
  for_each msgs (fun message =>
    when (negb (is_OtherType (message_type message)))
      (call lg (logText (message_text message) (Some REALERROR)))) w =
  Ok tt (emits (message_events lg msgs) w).
Proof.
  intros lg msgs w Hlg. revert w. unfold message_events.
  induction msgs as [|m msgs IH]; intro w; cbn [for_each filter map].
  - unfold ret. now rewrite emits_nil.
  - destruct (negb (is_OtherType (message_type m))); cbn [when map].
    + call_step Hlg. rewrite IH. now rewrite emits_app.
    + unfold bind, ret. apply IH.
Qed.

(** X9. With a debug logger, checkForGLerrors logs the logger's messages
    that are not of OtherType, in their order, each as REALERROR; it does
    not look at glGetError and changes nothing but the trace. *)
Theorem debug_messages_are_logged : forall (e : errors_env) (w : World),
  is_null (mOpenGLDebugLogger (win w)) = false ->
  is_null (mLogger (win w)) = false ->
  checkForGLerrors e w =
  Ok tt (emits
    (map (fun m => Call (mLogger (win w)) (logText (message_text m) (Some REALERROR)))
         (filter (fun m => negb (is_OtherType (message_type m))) (ge_loggedMessages e)))
    w).
Proof.
  intros e w Hdbg Hlg. unfold checkForGLerrors.
  do 2 (erewrite bind_ok by reflexivity). rewrite Hdbg. cbn [negb].
  now apply log_messages_eq.
Qed.

(** X10. Without a debug logger, checkForGLerrors logs every code that
    glGetError returns before its first GL_NO_ERROR: its decimal number as
    REALERROR, followed by an explanation for 1280, 1281 and 1282 only.
    Codes after the first GL_NO_ERROR are not read. *)
Theorem pending_errors_are_logged : forall (e : errors_env) (w : World),
  is_null (mOpenGLDebugLogger (win w)) = true ->
  is_null (mLogger (win w)) = false ->
  checkForGLerrors e w =
  Ok tt (emits
    (flat_map
       (fun err : N =>
          Call (mLogger (win w))
               (logText ("glGetError returns " ++ to_string err) (Some REALERROR)) ::
          (if (err =? 1280)%N
           then [Call (mLogger (win w)) (logText GL_INVALID_ENUM_text None)]
           else if (err =? 1281)%N
           then [Call (mLogger (win w)) (logText GL_INVALID_VALUE_text None)]
           else if (err =? 1282)%N
           then [Call (mLogger (win w)) (logText GL_INVALID_OPERATION_text None)]
           else []))
       (pending_errors (ge_glGetError e)))
    w).
Proof.
  intros e w Hdbg Hlg. unfold checkForGLerrors.
  do 2 (erewrite bind_ok by reflexivity). rewrite Hdbg. cbn [negb].
  now apply poll_glGetError_eq.
Qed.



(** X12. startOpenGLDebugger creates the debug logger exactly when the
    context has GL_KHR_debug, whether or not the format has the debug
    option and whether or not the logger could be started; from then on
    checkForGLerrors reads the logger's messages and never polls
    glGetError. *)
Theorem debug_logger_replaces_polling :
  forall (ie : init_env) (ee : errors_env) (w : World),
  is_null (mContext (win w)) = false ->
  is_null (mLogger (win w)) = false ->
  exists w1,
    startOpenGLDebugger ie w = Ok tt w1 /\
    mOpenGLDebugLogger (win w1) =
      (if ie_khr_debug ie then addr (List.length (heap w))
       else mOpenGLDebugLogger (win w)) /\
    (ie_khr_debug ie = true ->
     checkForGLerrors ee w1 =
     Ok tt (emits (message_events (mLogger (win w)) (ge_loggedMessages ee)) w1)).
Proof.
  intros [lg' mc vendor renderer version dc khr started] ee
         [[ctx ini mw tm lg dbg sh cam mp bl cp ar ra dr] c h g o] Hctx Hlg.
  cbn [win mContext mLogger] in Hctx, Hlg.
  destruct ctx as [|ctx|ctx]; [discriminate| |];
    (destruct lg as [|lg|lg]; [discriminate| |]);
    destruct dc, khr, started;
    (eexists; split; [reflexivity|]; split; [reflexivity|];
     intro Hk; try discriminate Hk;
     unfold checkForGLerrors;
     do 2 (erewrite bind_ok by reflexivity);
     cbn [negb is_null];
     now apply log_messages_eq).
Qed.

(** ** What init() builds *)

(** X13. init() on a constructed window, with makeCurrent succeeding:
    "PlainShader" is registered with a shader built from the plainshader
    files; the scene registry holds "Surface" and "Ball", in this order,
    both built with that shader; mBall is the ball; and the ball is given
    the registered surface before any object is initialised. *)
Theorem init_wires_ball_to_surface :
  forall (hd : header_defaults) (mainWindow : ptr) (e : init_env),
  ie_makeCurrent e = true ->
  is_null (ie_logger e) = false ->
  exists w' plain surface ball,
    init e (constructed hd mainWindow) = Ok tt w' /\
    Registry.find "PlainShader" (mShaders (win w')) = Some (addr plain) /\
    nth_error (heap w') plain =
      Some (NewShader "../VSIM_Oblig_3/plainshader.vert"
                      "../VSIM_Oblig_3/plainshader.frag") /\
    mMap (win w') = [("Surface"%string, addr surface); ("Ball"%string, addr ball)] /\
    nth_error (heap w') surface = Some (NewSurfaceMesh (addr plain)) /\
    nth_error (heap w') ball =
      Some (NewRollingBall "../VSIM_Oblig_3/ball.obj" (addr plain)) /\
    mBall (win w') = addr ball /\
    filter is_setup_call (out w') =
      [Call (addr ball) (SetSurface (addr surface));
       Call (addr surface) VisualObject_init;
       Call (addr ball) VisualObject_init].
Proof.
  intros hd mainWindow [lg mc vendor renderer version dc khr started] Hmc Hlg.
  cbn in Hmc, Hlg. subst mc.
  destruct lg as [|a|n]; [discriminate| |]; destruct dc, khr, started;
    (do 4 eexists; split; [vm_compute; reflexivity|]; repeat split; reflexivity).
Qed.

(** ** The rain key before init() *)

Lemma find_app_old : forall k v m l,
  Registry.find k m = Some v -> Registry.find k (m ++ l) = Some v.
Proof.
  intros k v m l. induction m as [|[k' v'] m IH]; cbn; [discriminate|].
  destruct (String.eqb k k'); [trivial|exact IH].
Qed.

Lemma find_insert_old : forall k v k' v' m,
  Registry.find k m = Some v -> Registry.find k (Registry.insert k' v' m) = Some v.
Proof.
  intros k v k' v' m H. unfold Registry.insert.
  destruct (Registry.find k' m); [exact H|now apply find_app_old].
Qed.

Lemma find_index_old : forall k v k' m,
  Registry.find k m = Some v -> Registry.find k (snd (Registry.index k' m)) = Some v.
Proof.
  intros k v k' m H. unfold Registry.index.
  destruct (Registry.find k' m); cbn [snd]; [exact H|now apply find_app_old].
Qed.

Lemma holds_bind : forall A B (P : World -> Prop) (m : M A) (k : A -> M B),
  holds P m -> (forall a, holds P (k a)) -> holds P (bind m k).
Proof.
  intros A B P m k Hm Hk w Hw. unfold bind. specialize (Hm w Hw).
  destruct (m w) as [a w1|]; [|exact I]. exact (Hk a w1 Hm).
Qed.

Lemma holds_when : forall (P : World -> Prop) (b : bool) (m : M unit),
  holds P m -> holds P (when b m).
Proof. intros P [|] m H; [exact H|]. intros w Hw. exact Hw. Qed.

Lemma holds_for_each : forall A (P : World -> Prop) (l : list A) (body : A -> M unit),
  (forall x, holds P (body x)) -> holds P (for_each l body).
Proof.
  intros A P l body H. induction l as [|x l IH]; cbn [for_each].
  - intros w Hw. exact Hw.
  - apply holds_bind; [apply H|intro; exact IH].
Qed.

Lemma holds_for_count : forall (P : World -> Prop) n i (body : Z -> M unit),
  (forall j, holds P (body j)) -> holds P (for_count n i body).
Proof.
  intros P n. induction n as [|n IH]; intros i body H; cbn [for_count].
  - intros w Hw. exact Hw.
  - apply holds_bind; [apply H|intro; now apply IH].
Qed.

Lemma keeps_lost : forall A (m : M A),
  keeps (fun w => mShaders (win w)) m -> holds shader_lost m.
Proof.
  intros A m K w Hw. specialize (K w). destruct (m w) as [a w'|]; [|exact I].
  unfold shader_lost in *. now rewrite K.
Qed.

Lemma lost_mShaders_insert : forall k v, holds shader_lost (mShaders_insert k v).
Proof.
  intros k v [s c h g o] Hw. unfold shader_lost in *. cbn in *.
  now apply find_insert_old.
Qed.

Lemma lost_mShaders_index : forall k, holds shader_lost (mShaders_index k).
Proof.
  intros k w Hw. rewrite mShaders_index_eq. destruct w as [s c h g o].
  unfold shader_lost in *. cbn in *. now apply find_index_old.
Qed.

Ltac lost_steps :=
  repeat lazymatch goal with
  | |- holds _ (bind _ _) => apply holds_bind; [|intro]
  | |- holds _ (mShaders_insert _ _) => apply lost_mShaders_insert
  | |- holds _ (mShaders_index _) => apply lost_mShaders_index
  | |- holds _ (when _ _) => apply holds_when
  | |- holds _ (for_each _ _) => apply holds_for_each; intro
  | |- holds _ (for_count _ _ _) => apply holds_for_count; intro
  | |- holds _ (if ?b then _ else _) => destruct b
  | |- holds _ _ => apply keeps_lost; solve [keeps_more]
  end.

Lemma handle_lost : forall c, holds shader_lost (handle c).
Proof.
  intros [e|e|key]; unfold handle; cbn [handle_every].
  - unfold exposeEvent, init, startOpenGLDebugger, add_shader. lost_steps.
  - intros w Hw. rewrite render_every_split.
    rewrite (bind_ok _ _ _ _ _ _ _ (calculateFramerate_every_eq _ _ _)).
    rewrite render_rest_cases.
    destruct (drawable _); [|exact I].
    unfold shader_lost, emits, set_out. cbn [win].
    rewrite win_after_framerate. exact Hw.
  - unfold keyPressEvent, toggle_rain, spawn_rain. lost_steps.
Qed.

Lemma first_drop_loses_shader : forall i w,
  Registry.find "PlainShader" (mShaders (win w)) = None ->
  shader_lost (spawn_step i w).
Proof.
  intros i [s c h g o] H. unfold shader_lost, spawn_step, Registry.index.
  cbn in *. rewrite H. cbn. now apply find_app_new.
Qed.

Lemma lost_not_drawable : forall w, shader_lost w -> drawable w = false.
Proof.
  intros w H. unfold drawable.
  destruct (ptrs_ok (map snd (mShaders (win w)))) eqn:E.
  - apply find_In in H.
    pose proof (ptrs_ok_In _ nullptr E (in_map snd _ _ H)). discriminate.
  - now rewrite !andb_false_r.
Qed.

Lemma spawn_loop_lost : forall n i w,
  shader_lost w -> shader_lost (spawn_loop n i w).
Proof.
  intros n i w H.
  assert (holds shader_lost (for_count n i spawn_rain)) as K
    by (unfold spawn_rain; lost_steps).
  specialize (K w H). now rewrite spawn_loop_eq in K.
Qed.

Lemma run_lost : forall cs w w',
  shader_lost w -> run cs w = Ok tt w' -> shader_lost w'.
Proof.
  intros cs w w' H Hrun.
  pose proof (holds_for_each _ shader_lost cs handle handle_lost w H) as K.
  unfold run, run_every in Hrun. unfold handle in K. now rewrite Hrun in K.
Qed.

(** X14. The rain key pressed while "PlainShader" is not yet registered
    (before init() has succeeded) registers it with a null pointer;
    no later handler, init() included, replaces the entry, and
    render() is undefined from then on. *)
Theorem rain_before_init_loses_PlainShader :
  forall (w : World) (cs : list invocation) (w' : World) (e : frame_env),
  Registry.find "PlainShader" (mShaders (win w)) = None ->
  ActivateRain (win w) = false ->
  0 < mRainAmount (win w) ->
  run (KeyPressEvent Key_I :: cs) w = Ok tt w' ->
  Registry.find "PlainShader" (mShaders (win w')) = Some nullptr /\
  render e w' = Undefined.
Proof.
  intros w cs w' e Hnone Hrain Hn Hrun.
  assert (shader_lost w') as Hlost.
  { unfold run, run_every in Hrun. cbn [for_each] in Hrun.
    change (handle_every 30 (KeyPressEvent Key_I)) with (keyPressEvent Key_I) in Hrun.
    unfold bind in Hrun at 1.
    rewrite keyPressEvent_Key_I, (toggle_rain_on w Hrain) in Hrun.
    refine (run_lost cs _ w' _ Hrun).
    change (shader_lost (spawn_loop (Z.to_nat (mRainAmount (win w))) 0 w)).
    destruct (Z.to_nat (mRainAmount (win w))) as [|n] eqn:En; [lia|].
    cbn [spawn_loop].
    apply (spawn_loop_lost n (0 + 1) (spawn_step 0 w)), first_drop_loses_shader, Hnone. }
  split; [exact Hlost|].
  unfold render. rewrite render_every_split.
  rewrite (bind_ok _ _ _ _ _ _ _ (calculateFramerate_every_eq _ _ _)).
  rewrite render_rest_cases.
  rewrite (drawable_same_win w') by apply win_after_framerate.
  now rewrite (lost_not_drawable w' Hlost).
Qed.

(** ** After initialisation *)

Lemma handle_after_init : forall c w w',
  mInitialized (win w) = true ->
  handle c w = Ok tt w' ->
  entries_view w' = entries_view w /\ initialized_view w' = initialized_view w.
Proof.
  intros [e|e|key] w w' Hi H; unfold handle in H; cbn [handle_every] in H.
  - unfold exposeEvent in H.
    erewrite bind_ok in H by reflexivity. rewrite Hi in H. cbn [negb when] in H.
    unfold bind at 1, ret in H.
    match type of H with
    | ?rest ?w1 = _ =>
        assert (K1 : keeps entries_view rest) by keeps_steps;
        assert (K2 : keeps initialized_view rest) by keeps_steps
    end.
    split; [exact (keeps_Ok _ _ _ _ _ _ _ K1 H)|exact (keeps_Ok _ _ _ _ _ _ _ K2 H)].
  - assert (K1 : keeps entries_view (render_every 30 e))
      by (unfold render_every, calculateFramerate_every, broadcast_camera; keeps_more).
    assert (K2 : keeps initialized_view (render_every 30 e))
      by (unfold render_every, calculateFramerate_every, broadcast_camera; keeps_more).
    split; [exact (keeps_Ok _ _ _ _ _ _ _ K1 H)|exact (keeps_Ok _ _ _ _ _ _ _ K2 H)].
  - assert (K1 : keeps entries_view (keyPressEvent key))
      by (unfold keyPressEvent, toggle_rain, spawn_rain; keeps_more).
    assert (K2 : keeps initialized_view (keyPressEvent key))
      by (unfold keyPressEvent, toggle_rain, spawn_rain; keeps_more).
    split; [exact (keeps_Ok _ _ _ _ _ _ _ K1 H)|exact (keeps_Ok _ _ _ _ _ _ _ K2 H)].
Qed.

(** X15. Once mInitialized is set, no sequence of handler invocations
    enters init() again or clears the flag. *)
Theorem init_is_not_entered_again : forall (cs : list invocation) (w w' : World),
  mInitialized (win w) = true ->
  run cs w = Ok tt w' ->
  init_entries (out w') = init_entries (out w) /\ mInitialized (win w') = true.
Proof.
  unfold run, run_every.
  induction cs as [|c cs IH]; intros w w' Hi H; cbn [for_each] in H.
  - injection H as <-. now split.
  - unfold bind in H. fold handle in H.
    destruct (handle c w) as [[] w1|] eqn:E; [|discriminate].
    destruct (handle_after_init c w w1 Hi E) as [K1 K2].
    unfold entries_view in K1. unfold initialized_view in K2.
    rewrite Hi in K2.
    destruct (IH w1 w' K2 H) as [J1 J2].
    split; [congruence|exact J2].
Qed.

Lemma equal_entries_not_NoDup : forall A (l : list A) (d : A) (i j : nat),
  (i <? List.length l)%nat = true ->
  (j <? List.length l)%nat = true ->
  (i =? j)%nat = false ->
  nth i l d = nth j l d ->
  ~ NoDup l.
Proof.
  intros A l d i j Hi Hj Hij H HN.
  apply Nat.ltb_lt in Hi, Hj. apply Nat.eqb_neq in Hij.
  apply Hij. now apply (proj1 (NoDup_nth l d) HN).
Qed.

End Frames.

(** ** The two orders of evaluating the rand() arguments *)

Section Orders.

Context {R : CRand}.

Lemma rain_positions_orders : forall n g,
  @rain_positions R right_to_left n g =
  map swap_xz (@rain_positions R left_to_right n g).
Proof.
  induction n as [|n IH]; intro g; cbn [rain_positions map]; [reflexivity|].
  change (snd (@spawn_position R right_to_left g))
    with (snd (@spawn_position R left_to_right g)).
  now rewrite IH.
Qed.

Lemma spawn_step_orders : forall i w1 w2,
  rng w1 = rng w2 -> heap w1 = heap w2 -> win w1 = win w2 ->
  rng (@spawn_step R left_to_right i w1) = rng (@spawn_step R right_to_left i w2) /\
  heap (@spawn_step R left_to_right i w1) = heap (@spawn_step R right_to_left i w2) /\
  win (@spawn_step R left_to_right i w1) = win (@spawn_step R right_to_left i w2).
Proof.
  intros i w1 w2 Hg Hh Hw. unfold spawn_step. cbn [rng heap win].
  rewrite Hg, Hh, Hw. now repeat split.
Qed.

Lemma spawn_loop_orders : forall n i w1 w2,
  rng w1 = rng w2 -> heap w1 = heap w2 -> win w1 = win w2 ->
  rng (@spawn_loop R left_to_right n i w1) = rng (@spawn_loop R right_to_left n i w2) /\
  heap (@spawn_loop R left_to_right n i w1) = heap (@spawn_loop R right_to_left n i w2) /\
  win (@spawn_loop R left_to_right n i w1) = win (@spawn_loop R right_to_left n i w2).
Proof.
  induction n as [|n IH]; intros i w1 w2 Hg Hh Hw; cbn [spawn_loop]; [now repeat split|].
  destruct (spawn_step_orders i w1 w2 Hg Hh Hw) as (Hg' & Hh' & Hw').
  now apply IH.
Qed.

(** X16. The order in which the compiler evaluates the two rand()
    arguments of the spawn position changes one thing only: each position
    has its x and z exchanged.  The same balls are created, the window is
    left with the same members and the generator in the same state. *)
Theorem argument_order_exchanges_x_and_z : forall w : World,
  ActivateRain (win w) = false ->
  exists w1 w2 t1 t2,
    @keyPressEvent R left_to_right Key_I w = Ok tt w1 /\
    @keyPressEvent R right_to_left Key_I w = Ok tt w2 /\
    out w1 = out w ++ t1 /\
    out w2 = out w ++ t2 /\
    set_positions t2 = map swap_xz (set_positions t1) /\
    rng w2 = rng w1 /\
    heap w2 = heap w1 /\
    win w2 = win w1.
Proof.
  intros w Hoff.
  pose proof (@toggle_rain_on R left_to_right w Hoff) as E1.
  pose proof (@toggle_rain_on R right_to_left w Hoff) as E2.
  destruct (@toggle_positions R left_to_right w _ Hoff E1) as (t1 & Ho1 & Hs1).
  destruct (@toggle_positions R right_to_left w _ Hoff E2) as (t2 & Ho2 & Hs2).
  destruct (spawn_loop_orders (Z.to_nat (mRainAmount (win w))) 0 w w eq_refl eq_refl eq_refl)
    as (Hg & Hh & Hw).
  eexists _, _, t1, t2.
  split; [exact E1|]. split; [exact E2|]. split; [exact Ho1|]. split; [exact Ho2|].
  split; [rewrite Hs1, Hs2; apply rain_positions_orders|].
  cbn [rng heap win set_win]. rewrite Hg, Hh, Hw. now repeat split.
Qed.

End Orders.

(** * The statements at sample inputs *)

Lemma render_broadcasts_camera_witness :
  running sample_running = true /\
  exists w' before after,
    render sample_frame sample_running = Ok tt w' /\
    out w' = out sample_running ++ before ++
      flat_map (fun it : string * ptr =>
        [Call (snd it) use;
         Call (snd it) (SetUniformMatrix4fv mVmatrix "vMatrix");
         Call (snd it) (SetUniformMatrix4fv mPmatrix "pMatrix")] ++
        (if String.eqb (fst it) "LightShader"
         then [Call (mCamera (win sample_running))
                 (Camera_GetPosition (fe_cameraPosition sample_frame));
               Call (mCamera (win sample_running))
                 (Camera_GetPosition (fe_cameraPosition sample_frame));
               Call (mCamera (win sample_running))
                 (Camera_GetPosition (fe_cameraPosition sample_frame));
               Call (snd it) (SetUniform3f (vx (fe_cameraPosition sample_frame))
                                           (vy (fe_cameraPosition sample_frame))
                                           (vy (fe_cameraPosition sample_frame))
                                           "cameraPosition")]
         else []))
        (mShaders (win sample_running)) ++ after.
Proof.
  split; [reflexivity|].
  apply (render_broadcasts_camera sample_frame sample_running). reflexivity.
Defined.

Lemma scene_registry_visited_in_insertion_order_witness :
  ie_makeCurrent sample_init = true /\
  is_null (ie_logger sample_init) = false /\
  exists w1 w2 surface ball,
    bind (RenderWindow_ctor true) (fun _ => init sample_init)
         (process_start sample_defaults (extern 0)) = Ok tt w1 /\
    mMap (win w1) = [("Surface"%string, surface); ("Ball"%string, ball)] /\
    drawable_calls (out w1) =
      [Call surface VisualObject_init; Call surface UpdateTransform;
       Call ball VisualObject_init; Call ball UpdateTransform] /\
    render sample_frame w1 = Ok tt w2 /\
    drawable_calls (out w2) =
      drawable_calls (out w1) ++
      [Call surface UpdateTransform; Call surface draw;
       Call ball UpdateTransform; Call ball draw].
Proof.
  split; [reflexivity|]. split; [reflexivity|].
  apply (scene_registry_visited_in_insertion_order
           sample_defaults (extern 0) sample_init sample_frame); reflexivity.
Defined.

Lemma render_ignores_makeCurrent_failure_witness :
  running sample_running = true /\
  fe_makeCurrent failing_frame = false /\
  exists w' t,
    render failing_frame sample_running = Ok tt w' /\
    out w' = out sample_running ++ t /\
    In (Call (mContext (win sample_running)) (makeCurrent false)) t /\
    forallb (fun ev => negb (is_logText ev)) t = true /\
    In (GL glClear_COLOR_DEPTH) t /\
    (forall it, In it (mMap (win sample_running)) -> In (Call (snd it) draw) t) /\
    In (Call (mContext (win sample_running)) swapBuffers) t.
Proof.
  split; [reflexivity|]. split; [reflexivity|].
  apply (render_ignores_makeCurrent_failure failing_frame sample_running); reflexivity.
Defined.

(** C4 as stated fails: started on the ISO C generator with 18 balls to
    spawn, the rain key places the third and the eighteenth ball at the same
    position, whichever of the two rand() arguments is evaluated first. *)
Lemma rain_positions_not_distinct :
  ActivateRain (win sample_running) = false /\
  mRainAmount (win sample_running) = 18 /\
  @keyPressEvent iso_c_rand right_to_left Key_I sample_running = Ok tt sample_rained /\
  List.length (set_positions (skipn (List.length (out sample_running)) (out sample_rained)))
    = 18%nat /\
  ~ NoDup (set_positions (skipn (List.length (out sample_running)) (out sample_rained))) /\
  @keyPressEvent iso_c_rand left_to_right Key_I sample_running
    = Ok tt sample_rained_left_to_right /\
  List.length (set_positions (skipn (List.length (out sample_running))
                                    (out sample_rained_left_to_right)))
    = 18%nat /\
  ~ NoDup (set_positions (skipn (List.length (out sample_running))
                                (out sample_rained_left_to_right))).
Proof.
  split; [reflexivity|]. split; [reflexivity|]. split; [reflexivity|].
  split; [reflexivity|].
  split.
  { apply (equal_entries_not_NoDup _ _ (vec3i 0 0 0) 2 17); vm_compute; reflexivity. }
  split; [reflexivity|]. split; [reflexivity|].
  apply (equal_entries_not_NoDup _ _ (vec3i 0 0 0) 2 17); vm_compute; reflexivity.
Qed.

Lemma status_message_every_31_frames_witness :
  is_null (mMainWindow (win sample_running)) = false /\
  frameCount sample_running = 0 /\
  exists w',
    for_each (repeat 16000000 31) calculateFramerate sample_running = Ok tt w' /\
    frameCount w' = Z.of_nat (List.length (repeat 16000000 31)) mod 31 /\
    Z.of_nat (List.length (status_messages (out w'))) =
      Z.of_nat (List.length (status_messages (out sample_running)))
      + Z.of_nat (List.length (repeat 16000000 31)) / 31.
Proof.
  split; [reflexivity|]. split; [reflexivity|].
  apply (status_message_every_31_frames (repeat 16000000 31) sample_running); reflexivity.
Defined.

Lemma rain_flag_matches_drops_witness :
  0 < mRainAmount (win sample_running) /\
  handle (KeyPressEvent Key_I) sample_running = Ok tt sample_rained /\
  mRainAmount (win sample_rained) = mRainAmount (win sample_running) /\
  (rain_consistent sample_running -> rain_consistent sample_rained) /\
  (is_toggle (KeyPressEvent Key_I) = false ->
   ActivateRain (win sample_rained) = ActivateRain (win sample_running) /\
   mRainDrops (win sample_rained) = mRainDrops (win sample_running)).
Proof.
  split; [reflexivity|]. split; [reflexivity|].
  apply (rain_flag_matches_drops (KeyPressEvent Key_I) sample_running sample_rained);
    reflexivity.
Defined.

Lemma rain_positions_deterministic_witness :
  exists t1 t2,
    out sample_moved_rained = out sample_moved ++ t1 /\
    out sample_rained = out sample_running ++ t2 /\
    set_positions t1 = set_positions t2 /\
    set_positions t1 =
      rain_positions (Z.to_nat (mRainAmount (win sample_running))) (rng sample_running) /\
    Forall in_rain_square (set_positions t1).
Proof.
  apply (rain_positions_deterministic
           [KeyPressEvent Key_W; Render sample_frame] []
           sample_running sample_running sample_moved sample_running
           sample_moved_rained sample_rained); reflexivity.
Defined.

Lemma init_entered_once_at_first_notification_witness :
  exists w',
    bind (RenderWindow_ctor true)
         (fun _ => for_each [sample_expose; failing_expose; sample_expose] exposeEvent)
         (process_start sample_defaults (extern 0)) = Ok tt w' /\
    init_entries (out w') = 1%nat /\
    mInitialized (win w') = true.
Proof.
  exact (init_entered_once_at_first_notification
           sample_defaults (extern 0) sample_expose [failing_expose; sample_expose]).
Defined.

(** C5 as stated fails: 2^24 presses of W take the sample camera to
    z = 2^24; there W changes nothing, so W then S ends at 2^24 - 1 and
    S then W at 2^24. *)
Lemma camera_keys_do_not_commute_far_out :
  for_each (repeat Key_W (Z.to_nat 16777216)) keyPressEvent sample_running
    = Ok tt sample_far /\
  CamPos (win sample_far) = vec3i 0 0 16777216 /\
  forallb is_movement [Key_W; Key_S] = true /\
  Permutation [Key_W; Key_S] [Key_S; Key_W] /\
  for_each [Key_W; Key_S] keyPressEvent sample_far = Ok tt sample_far_W_S /\
  for_each [Key_S; Key_W] keyPressEvent sample_far = Ok tt sample_far_S_W /\
  CamPos (win sample_far_W_S) = vec3i 0 0 16777215 /\
  CamPos (win sample_far_S_W) = vec3i 0 0 16777216 /\
  CamPos (win sample_far_W_S) <> CamPos (win sample_far_S_W).
Proof.
  split.
  { rewrite (@camera_keys_add_up iso_c_rand right_to_left (repeat Key_W (Z.to_nat 16777216)) 0 0 0 sample_running).
    - rewrite !total_repeat, Z2Nat.id by lia. reflexivity.
    - now apply forallb_repeat.
    - reflexivity.
    - rewrite repeat_length, Z2Nat.id by lia. reflexivity.
    - rewrite repeat_length, Z2Nat.id by lia. reflexivity.
    - rewrite repeat_length, Z2Nat.id by lia. reflexivity. }
  split; [reflexivity|]. split; [reflexivity|].
  split; [apply perm_swap|].
  split; [reflexivity|]. split; [reflexivity|].
  split; [reflexivity|]. split; [reflexivity|].
  discriminate.
Qed.

Lemma camera_position_is_sum_of_steps_witness :
  exists w',
    for_each [Key_W; Key_W; Key_D; Key_Q] keyPressEvent sample_running = Ok tt w' /\
    for_each [Key_Q; Key_D; Key_W; Key_W] keyPressEvent sample_running = Ok tt w' /\
    CamPos (win w') =
      vec3i (0 + total step_x [Key_W; Key_W; Key_D; Key_Q])
            (0 + total step_y [Key_W; Key_W; Key_D; Key_Q])
            (0 + total step_z [Key_W; Key_W; Key_D; Key_Q]).
Proof.
  apply (camera_position_is_sum_of_steps
           [Key_W; Key_W; Key_D; Key_Q] [Key_Q; Key_D; Key_W; Key_W] 0 0 0 sample_running).
  - reflexivity.
  - apply (Permutation_rev [Key_W; Key_W; Key_D; Key_Q]).
  - reflexivity.
  - vm_compute. discriminate.
  - vm_compute. discriminate.
  - vm_compute. discriminate.
Defined.

(** ** The further properties on the sample run *)

Lemma ready_is_kept_witness :
  exists w',
    run [KeyPressEvent Key_I; Render sample_frame; ExposeEvent sample_expose;
         KeyPressEvent Key_Escape; Render failing_frame] sample_running = Ok tt w' /\
    ready w' = true.
Proof.
  apply (ready_is_kept
           [KeyPressEvent Key_I; Render sample_frame; ExposeEvent sample_expose;
            KeyPressEvent Key_Escape; Render failing_frame] sample_running).
  reflexivity.
Defined.

Lemma first_notification_makes_ready_witness :
  exists w',
    bind (RenderWindow_ctor true)
         (fun _ => for_each [sample_expose; failing_expose; plain_expose] exposeEvent)
         (process_start sample_defaults (extern 0)) = Ok tt w' /\
    ready w' = true.
Proof.
  apply (first_notification_makes_ready
           sample_defaults (extern 0) sample_expose [failing_expose; plain_expose]);
    reflexivity.
Defined.

Lemma frameCount_stays_in_range_witness : 0 <= frameCount sample_moved <= 30.
Proof.
  apply (frameCount_stays_in_range
           [KeyPressEvent Key_W; Render sample_frame] sample_running sample_moved).
  - change (frameCount sample_running) with 0. lia.
  - reflexivity.
Defined.

Lemma keyPressEvent_leaves_scene_witness :
  mContext (win sample_rained) = mContext (win sample_running) /\
  mInitialized (win sample_rained) = mInitialized (win sample_running) /\
  mMainWindow (win sample_rained) = mMainWindow (win sample_running) /\
  mRenderTimer (win sample_rained) = mRenderTimer (win sample_running) /\
  mLogger (win sample_rained) = mLogger (win sample_running) /\
  mOpenGLDebugLogger (win sample_rained) = mOpenGLDebugLogger (win sample_running) /\
  mCamera (win sample_rained) = mCamera (win sample_running) /\
  mMap (win sample_rained) = mMap (win sample_running) /\
  mBall (win sample_rained) = mBall (win sample_running) /\
  mRainAmount (win sample_rained) = mRainAmount (win sample_running) /\
  frameCount sample_rained = frameCount sample_running.
Proof.
  apply (keyPressEvent_leaves_scene Key_I sample_running sample_rained).
  reflexivity.
Defined.

Lemma keys_without_effect_witness :
  keyPressEvent 80 sample_running =
  if 80 =? Key_Escape
  then if is_null (mMainWindow (win sample_running)) then Undefined
       else Ok tt (emits [Call (mMainWindow (win sample_running)) close] sample_running)
  else Ok tt sample_running.
Proof.
  apply (keys_without_effect 80 sample_running).
  - reflexivity.
  - unfold Key_I. discriminate.
Defined.

Lemma failed_makeCurrent_is_fatal_witness :
  (exists w1,
     init (ee_init failing_expose) (constructed sample_defaults (extern 0)) = Ok tt w1 /\
     mInitialized (win w1) = false /\
     In (Call (ie_logger (ee_init failing_expose))
              (logText "makeCurrent() failed" (Some REALERROR))) (out w1) /\
     ~ In (GL initializeOpenGLFunctions) (out w1)) /\
  (forall w : @World iso_c_rand,
     mInitialized (win w) = false -> exposeEvent failing_expose w = Undefined).
Proof.
  apply (failed_makeCurrent_is_fatal sample_defaults (extern 0) failing_expose);
    reflexivity.
Defined.

Lemma debug_messages_are_logged_witness :
  checkForGLerrors sample_errors sample_running =
  Ok tt (emits
    (map (fun m => Call (mLogger (win sample_running))
                        (logText (message_text m) (Some REALERROR)))
         (filter (fun m => negb (is_OtherType (message_type m)))
                 (ge_loggedMessages sample_errors)))
    sample_running).
Proof.
  apply (debug_messages_are_logged sample_errors sample_running); reflexivity.
Defined.

Lemma pending_errors_are_logged_witness :
  checkForGLerrors sample_errors sample_polling =
  Ok tt (emits
    (flat_map
       (fun err : N =>
          Call (mLogger (win sample_polling))
               (logText ("glGetError returns " ++ to_string err) (Some REALERROR)) ::
          (if (err =? 1280)%N
           then [Call (mLogger (win sample_polling)) (logText GL_INVALID_ENUM_text None)]
           else if (err =? 1281)%N
           then [Call (mLogger (win sample_polling)) (logText GL_INVALID_VALUE_text None)]
           else if (err =? 1282)%N
           then [Call (mLogger (win sample_polling))
                      (logText GL_INVALID_OPERATION_text None)]
           else []))
       (pending_errors (ge_glGetError sample_errors)))
    sample_polling).
Proof.
  apply (pending_errors_are_logged sample_errors sample_polling); reflexivity.
Defined.


Lemma debug_logger_replaces_polling_witness :
  exists w1,
    startOpenGLDebugger sample_init sample_polling = Ok tt w1 /\
    mOpenGLDebugLogger (win w1) =
      (if ie_khr_debug sample_init then addr (List.length (heap sample_polling))
       else mOpenGLDebugLogger (win sample_polling)) /\
    (ie_khr_debug sample_init = true ->
     checkForGLerrors sample_errors w1 =
     Ok tt (emits (message_events (mLogger (win sample_polling))
                                  (ge_loggedMessages sample_errors)) w1)).
Proof.
  apply (debug_logger_replaces_polling sample_init sample_errors sample_polling);
    reflexivity.
Defined.

Lemma init_wires_ball_to_surface_witness :
  exists w' plain surface ball,
    init sample_init (constructed sample_defaults (extern 0)) = Ok tt w' /\
    Registry.find "PlainShader" (mShaders (win w')) = Some (addr plain) /\
    nth_error (heap w') plain =
      Some (NewShader "../VSIM_Oblig_3/plainshader.vert"
                      "../VSIM_Oblig_3/plainshader.frag") /\
    mMap (win w') = [("Surface"%string, addr surface); ("Ball"%string, addr ball)] /\
    nth_error (heap w') surface = Some (NewSurfaceMesh (addr plain)) /\
    nth_error (heap w') ball =
      Some (NewRollingBall "../VSIM_Oblig_3/ball.obj" (addr plain)) /\
    mBall (win w') = addr ball /\
    filter is_setup_call (out w') =
      [Call (addr ball) (SetSurface (addr surface));
       Call (addr surface) VisualObject_init;
       Call (addr ball) VisualObject_init].
Proof.
  apply (init_wires_ball_to_surface sample_defaults (extern 0) sample_init);
    reflexivity.
Defined.

Lemma rain_before_init_loses_PlainShader_witness :
  Registry.find "PlainShader" (mShaders (win sample_rained_early)) = Some nullptr /\
  render sample_frame sample_rained_early = Undefined.
Proof.
  apply (rain_before_init_loses_PlainShader
           sample_constructed [ExposeEvent sample_expose] sample_rained_early sample_frame).
  - reflexivity.
  - reflexivity.
  - change (mRainAmount (win sample_constructed)) with 18. lia.
  - reflexivity.
Defined.

Lemma init_is_not_entered_again_witness :
  init_entries (out sample_moved) = init_entries (out sample_running) /\
  mInitialized (win sample_moved) = true.
Proof.
  apply (init_is_not_entered_again
           [KeyPressEvent Key_W; Render sample_frame] sample_running sample_moved);
    reflexivity.
Defined.

Lemma argument_order_exchanges_x_and_z_witness :
  exists w1 w2 t1 t2,
    @keyPressEvent iso_c_rand left_to_right Key_I sample_running = Ok tt w1 /\
    @keyPressEvent iso_c_rand right_to_left Key_I sample_running = Ok tt w2 /\
    out w1 = out sample_running ++ t1 /\
    out w2 = out sample_running ++ t2 /\
    set_positions t2 = map swap_xz (set_positions t1) /\
    rng w2 = rng w1 /\
    heap w2 = heap w1 /\
    win w2 = win w1.
Proof.
  apply (@argument_order_exchanges_x_and_z iso_c_rand sample_running). reflexivity.
Defined.
